(** * Navigation-timing profiler: a shallow embedding of [src/profiler.js]

    The JavaScript module reads the milestones of [window.performance.timing],
    turns them into offsets from [navigationStart], buckets the catalog
    [eventsOrder] into three sections (network, server, browser) and prints
    one line per Start/End block.

    Modelling conventions.
    - Timestamps are JS numbers holding integers (DOMTimeStamp); they are
      modelled as [Z], and [-] on them is exact.
    - A JS object used as a dictionary is a [gmap string _] holding its own
      properties.  Two names of [Object.prototype] are looked up or assigned
      on the [events] object and are modelled as the language defines them:
      assigning to [__proto__] replaces the prototype and creates no
      property ([assign]), and calling [hasOwnProperty] raises when an own
      property of that name shadows the method ([hasOwnProperty]).
    - [undefined] is [None]; dereferencing it raises [TypeError], which is
      an explicit outcome of the functions below.  Mutations made before the
      exception is raised stay in the returned state, as they do on the
      JS heap.
    - [Array.prototype.indexOf] exists (the code also relies on
      [Object.keys] and [Array.prototype.filter], all ES5). *)

From Stdlib Require Import ZArith String Ascii List Lia DecimalString Sorted.
From stdpp Require Import gmap strings list fin_maps sorting.

Open Scope string_scope.
Open Scope list_scope.
Open Scope Z_scope.

Module Timing.

(** ** JavaScript primitives used by the source *)

(** [Array.prototype.indexOf]: position of the first occurrence, [-1] when
    there is none. *)
Fixpoint indexOf (l : list string) (x : string) : Z :=
  match l with
  | [] => -1
  | y :: l' =>
      if decide (y = x) then 0
      else let r := indexOf l' x in if r <? 0 then -1 else r + 1
  end.

(** [Array.prototype.slice(start, end)], with the relative indices of the
    language: a negative index counts from the end, and both are clamped. *)
Definition rel_index (len i : Z) : Z :=
  if i <? 0 then Z.max (len + i) 0 else Z.min i len.

Definition slice {A} (l : list A) (start end_ : Z) : list A :=
  let len := Z.of_nat (length l) in
  let k := rel_index len start in
  let e := rel_index len end_ in
  take (Z.to_nat (e - k)) (drop (Z.to_nat k) l).

(** [a || b] on numbers: [a] when it is truthy (present and non-zero). *)
Definition js_or (a : option Z) (b : Z) : Z :=
  match a with
  | Some v => if v =? 0 then b else v
  | None => b
  end.

(** [ToPropertyKey] of an array element that may be [undefined]. *)
Definition key_of (o : option string) : string := default "undefined" o.

(** [String.prototype.indexOf] is [String.index 0]; [substr(0, n)] is
    [substring 0 n]. *)
Definition str_indexOf (needle s : string) : option nat := String.index 0 needle s.
Definition substr0 (s : string) (n : nat) : string := substring 0 n s.

(** Outcome of a call: normal completion or a raised exception. *)
Inductive error := TypeError.
Inductive completion (A : Type) :=
| Normal (a : A)
| Throw (e : error).
Arguments Normal {A} a.
Arguments Throw {A} e.

(** ** Data model *)

(** An entry of [this.timingData]: [{time, sectionIndex?, label?, timeEnd?}]. *)
Record Event := mkEvent {
  time : Z;
  sectionIndex : option nat;
  label : option string;
  timeEnd : option Z
}.

(** An entry of [this.sections]. *)
Record Section_ := mkSection {
  name : string;
  color : list Z;
  firstEventIndex : Z;
  lastEventIndex : Z;
  startTime : Z;
  endTime : Z
}.

(** The [options] object built for each emitted block (lines 201-206). *)
Record Options := mkOptions {
  opt_color : list Z;
  sectionTimeBounds : Z * Z;
  eventTimeBounds : Z * Z;
  opt_label : string
}.

(** The instance: [this.totalTime], [this.timingData] ([None] when it is
    [undefined]) and [this.sections]. *)
Record Profiler := mkProfiler {
  totalTime : Z;
  timingData : option (gmap string Event);
  sections : list Section_
}.

(** [new __Profiler()]; the empty array of [timingData] has no milestone. *)
Definition __Profiler : Profiler :=
  {| totalTime := 0; timingData := Some ∅; sections := [] |}.

(** [performance.timing]: its own properties and those of its prototype. *)
Record PerformanceTiming := mkTiming {
  own_props : gmap string Z;
  proto_props : gmap string Z
}.

(** Property read [obj[k]]: own property first, then the prototype. *)
Definition get (obj : PerformanceTiming) (k : string) : option Z :=
  match own_props obj !! k with
  | Some v => Some v
  | None => proto_props obj !! k
  end.

(** [Object.keys] of a dictionary. *)
Definition keys (m : gmap string Z) : list string := (map_to_list m).*1.

Definition eventsOrder : list string :=
  [ "navigationStart"; "redirectStart"; "redirectStart";
    "redirectEnd"; "fetchStart"; "domainLookupStart";
    "domainLookupEnd"; "connectStart"; "secureConnectionStart";
    "connectEnd"; "requestStart"; "responseStart"; "responseEnd";
    "unloadEventStart"; "unloadEventEnd"; "domLoading";
    "domInteractive"; "msFirstPaint"; "domContentLoadedEventStart";
    "domContentLoadedEventEnd"; "domContentLoaded"; "domComplete";
    "loadEventStart"; "loadEventEnd" ].

Definition _getPerfObjKeys (obj : PerformanceTiming) : list string :=
  let ks := keys (own_props obj) in
  match ks with
  | [] => keys (proto_props obj)
  | _ => ks
  end.

Definition _getSections : list Section_ :=
  [ {| name := "network"; color := [224; 84; 63];
       firstEventIndex := indexOf eventsOrder "navigationStart";
       lastEventIndex := indexOf eventsOrder "connectEnd";
       startTime := 0; endTime := 0 |};
    {| name := "server"; color := [255; 188; 0];
       firstEventIndex := indexOf eventsOrder "requestStart";
       lastEventIndex := indexOf eventsOrder "responseEnd";
       startTime := 0; endTime := 0 |};
    {| name := "browser"; color := [16; 173; 171];
       firstEventIndex := indexOf eventsOrder "unloadEventStart";
       lastEventIndex := indexOf eventsOrder "loadEventEnd";
       startTime := 0; endTime := 0 |} ].

(** ** [_getData] *)

(** The assignment [events[k] = v] of line 151, on an object created by the
    literal [{}].  The name [__proto__] is the accessor inherited from
    [Object.prototype]: its setter makes the object [v] the prototype of
    [events] and creates no property.  That prototype holds the single
    property [time], a name no later lookup asks for, so it is not
    recorded.  Every other name creates or overwrites an own property. *)
Definition assign (k : string) (v : Event) (events : gmap string Event)
    : gmap string Event :=
  if decide (k = "__proto__") then events else <[k := v]> events.

(** One iteration of the loop of lines 146-157 on the field [k]; the state
    is [(events, totalTime)]. *)
Definition getData_step (timing : PerformanceTiming) (startTime : Z)
    (st : gmap string Event * Z) (k : string) : gmap string Event * Z :=
  let '(events, total) := st in
  match get timing k with
  | Some evt =>
      if negb (evt =? 0) && (0 <? evt) then
        let eventTime := evt - startTime in
        (assign k (mkEvent eventTime None None None) events,
         if total <? eventTime then eventTime else total)
      else (events, total)
  | None => (events, total)
  end.

Definition getData_loop (timing : PerformanceTiming) (startTime : Z)
    (eventNames : list string) : gmap string Event * Z :=
  foldl (getData_step timing startTime) (∅, 0) eventNames.

(** [_getData], given [window.performance] ([None] when it is missing; its
    [timing] member otherwise): the updated instance and the returned value
    ([None] is [undefined]). *)
Definition _getData (performance : option PerformanceTiming) (this : Profiler)
    : Profiler * option (gmap string Event) :=
  match performance with
  | None => (this, None)
  | Some timing =>
      let eventNames := _getPerfObjKeys timing in
      let startTime := js_or (get timing "navigationStart") 0 in
      let '(events, total) := getData_loop timing startTime eventNames in
      ({| totalTime := total; timingData := timingData this;
          sections := sections this |}, Some events)
  end.

(** ** [_matchEventsWithSections] *)

(** [data[k].time] inside the comparator; every compared name went through
    the [hasOwnProperty] filter, so the default is never used. *)
Definition time_of (data : gmap string Event) (k : string) : Z :=
  match data !! k with
  | Some e => time e
  | None => 0
  end.

(** [Array.prototype.sort] with the comparator [f a - f b], as a stable
    insertion sort.  Only the [time] of the first and of the last element
    of the result, and the set of its elements, are read afterwards. *)
Fixpoint insert_by (f : string -> Z) (x : string) (l : list string) : list string :=
  match l with
  | [] => [x]
  | y :: l' => if f x <=? f y then x :: l else y :: insert_by f x l'
  end.

Fixpoint sort_by (f : string -> Z) (l : list string) : list string :=
  match l with
  | [] => []
  | x :: l' => insert_by f x (sort_by f l')
  end.

(** A loop whose body may raise: the state reached so far is kept. *)
Fixpoint for_each {S X : Type} (body : S -> X -> S * completion unit)
    (s : S) (xs : list X) : S * completion unit :=
  match xs with
  | [] => (s, Normal tt)
  | x :: xs' =>
      match body s x with
      | (s', Normal _) => for_each body s' xs'
      | (s', Throw e) => (s', Throw e)
      end
  end.

Definition set_startTime (v : Z) (s : Section_) : Section_ :=
  {| name := name s; color := color s; firstEventIndex := firstEventIndex s;
     lastEventIndex := lastEventIndex s; startTime := v; endTime := endTime s |}.

Definition set_endTime (v : Z) (s : Section_) : Section_ :=
  {| name := name s; color := color s; firstEventIndex := firstEventIndex s;
     lastEventIndex := lastEventIndex s; startTime := startTime s; endTime := v |}.

Definition set_sectionIndex (i : nat) (e : Event) : Event :=
  {| time := time e; sectionIndex := Some i; label := label e; timeEnd := timeEnd e |}.

(** Lines 115-118: [if (data[item]) data[item].sectionIndex = i]. *)
Definition tag_event (i : nat) (data : gmap string Event) (item : string)
    : gmap string Event :=
  match data !! item with
  | Some e => <[item := set_sectionIndex i e]> data
  | None => data
  end.

(** The call [data.hasOwnProperty(el)] of lines 101 and 181.  The method
    is the one of [Object.prototype] unless [data] has an own property named
    [hasOwnProperty]: that property, an entry [{time}], is then what is
    called, and it is not a function. *)
Definition hasOwnProperty (data : gmap string Event) (el : string)
    : completion bool :=
  match data !! "hasOwnProperty" with
  | Some _ => Throw TypeError
  | None => Normal (bool_decide (is_Some (data !! el)))
  end.

(** [Array.prototype.filter] with a callback that may raise: the callback
    is called on the elements in order, and its exception escapes. *)
Fixpoint filter_with {A} (f : A -> completion bool) (l : list A)
    : completion (list A) :=
  match l with
  | [] => Normal []
  | x :: l' =>
      match f x with
      | Throw e => Throw e
      | Normal keep =>
          match filter_with f l' with
          | Throw e => Throw e
          | Normal r => Normal (if keep then x :: r else r)
          end
      end
  end.

(** The body of the loop of lines 95-120 for the section of index [i]. *)
Definition match_section (st : gmap string Event * list Section_) (i : nat)
    : (gmap string Event * list Section_) * completion unit :=
  let '(data, sections) := st in
  match sections !! i with
  | None => (st, Throw TypeError)
  | Some sec =>
      let sectionOrder :=
        slice eventsOrder (firstEventIndex sec) (lastEventIndex sec + 1) in
      match filter_with (hasOwnProperty data) sectionOrder with
      | Throw e => (st, Throw e)
      | Normal filtered =>
          let sectionEvents := sort_by (time_of data) filtered in
          let firstEventIndex := key_of (head sectionEvents) in
          let lastEventIndex := key_of (last sectionEvents) in
          match data !! firstEventIndex with
          | None => (st, Throw TypeError)
          | Some fe =>
              let sections1 := alter (set_startTime (time fe)) i sections in
              match data !! lastEventIndex with
              | None => ((data, sections1), Throw TypeError)
              | Some le =>
                  let sections2 := alter (set_endTime (time le)) i sections1 in
                  ((foldl (tag_event i) data sectionEvents, sections2), Normal tt)
              end
          end
      end
  end.

Arguments match_section : simpl never.

(** [_matchEventsWithSections]: with [timingData] undefined the first
    section already dereferences it. *)
Definition _matchEventsWithSections (this : Profiler) : Profiler * completion unit :=
  match timingData this with
  | None =>
      match sections this with
      | [] => (this, Normal tt)
      | _ => (this, Throw TypeError)
      end
  | Some data =>
      let '((data', sections'), c) :=
        for_each match_section (data, sections this)
                 (seq 0 (length (sections this))) in
      ({| totalTime := totalTime this; timingData := Some data';
          sections := sections' |}, c)
  end.

(** ** [_init] *)

Definition set_label (l : string) (e : Event) : Event :=
  {| time := time e; sectionIndex := sectionIndex e; label := Some l; timeEnd := timeEnd e |}.

Definition set_timeEnd (t : Z) (e : Event) : Event :=
  {| time := time e; sectionIndex := sectionIndex e; label := label e; timeEnd := Some t |}.

(** Local state of the loop of lines 178-213: the shared [timingData]
    object, the [options] objects whose lines were appended to [output],
    and [skipEvents] (pushed to, never read). *)
Record LoopState := mkLoop {
  ls_data : gmap string Event;
  ls_output : list Options;
  ls_skipEvents : list string
}.

(** One iteration, for the catalog entry [evt]. *)
Definition emit_step (sections : list Section_) (st : LoopState) (evt : string)
    : LoopState * completion unit :=
  match hasOwnProperty (ls_data st) evt with
  | Throw e => (st, Throw e)
  | Normal _ =>
      match ls_data st !! evt with
      | None => (st, Normal tt)
      | Some item =>
          match str_indexOf "Start" evt with
          | None => (st, Normal tt)
          | Some startIndex =>
              let eventName := substr0 evt startIndex in
              if -1 <? indexOf eventsOrder (eventName +:+ "End") then
                let item1 := set_label eventName item in
                let data1 := <[evt := item1]> (ls_data st) in
                match data1 !! (eventName +:+ "End") with
                | None =>
                    (mkLoop data1 (ls_output st) (ls_skipEvents st), Throw TypeError)
                | Some e =>
                    let item2 := set_timeEnd (time e) item1 in
                    let data2 := <[evt := item2]> data1 in
                    let skip2 := ls_skipEvents st ++ [eventName +:+ "End"] in
                    match sectionIndex item2 ≫= (fun i => sections !! i) with
                    | None => (mkLoop data2 (ls_output st) skip2, Throw TypeError)
                    | Some sectionData =>
                        let options :=
                          {| opt_color := color sectionData;
                             sectionTimeBounds :=
                               (startTime sectionData, endTime sectionData);
                             eventTimeBounds := (time item2, time e);
                             opt_label := eventName |} in
                        (mkLoop data2 (ls_output st ++ [options]) skip2, Normal tt)
                    end
                end
              else (st, Normal tt)
          end
      end
  end.

Arguments emit_step : simpl never.

(** Decimal rendering of an integer, as [+] renders a number of that size
    in a string concatenation. *)
Definition show_number (z : Z) : string := DecimalString.NilZero.string_of_int (Z.to_int z).

Definition newline : string := String "010"%char EmptyString.

(** The line appended to [output] for one block (lines 208-211). *)
Definition line_of (o : Options) : string :=
  let start := fst (eventTimeBounds o) in
  let stop := snd (eventTimeBounds o) in
  let timeLabel := show_number start +:+ "-" +:+ show_number stop in
  opt_label o +:+ " " +:+ timeLabel +:+ " ms<br>" +:+ newline.

(** The value of [output] handed to [innerHTML]. *)
Definition output_html (rows : list Options) : string :=
  foldl (fun out o => out +:+ line_of o) "" rows.

(** [_init]: the instance as the call leaves it, and either the emitted
    blocks (whose lines are rendered) or the exception that escapes. *)
Definition _init (performance : option PerformanceTiming) (this : Profiler)
    : Profiler * completion (list Options) :=
  let '(this1, ret) := _getData performance this in
  let this2 := {| totalTime := totalTime this1; timingData := ret;
                  sections := _getSections |} in
  let '(this3, c) :=
    match timingData this2, sections this2 with
    | Some _, _ :: _ => _matchEventsWithSections this2
    | _, _ => (this2, Normal tt)
    end in
  match c with
  | Throw e => (this3, Throw e)
  | Normal _ =>
      match timingData this3 with
      | None =>
          match eventsOrder with
          | [] => (this3, Normal [])
          | _ => (this3, Throw TypeError)
          end
      | Some data =>
          let '(st, c') := for_each (emit_step (sections this3))
                                    (mkLoop data [] []) eventsOrder in
          let this4 := {| totalTime := totalTime this3;
                          timingData := Some (ls_data st);
                          sections := sections this3 |} in
          match c' with
          | Throw e => (this4, Throw e)
          | Normal _ => (this4, Normal (ls_output st))
          end
      end
  end.

(** ** Vocabulary of the statements *)

(** The names of the section between its two catalog indices that are
    milestones of [data]: what the filter of lines 99-102 keeps when its
    callback does not raise. *)
Definition sectionEvents_of (data : gmap string Event) (sec : Section_) : list string :=
  let sectionOrder := slice eventsOrder (firstEventIndex sec) (lastEventIndex sec + 1) in
  filter (fun el => is_Some (data !! el)) sectionOrder.

(** The offset [_getData] stores for the field [k], if it retains it. *)
Definition offset_of (timing : PerformanceTiming) (origin : Z) (k : string)
    : option Z :=
  match get timing k with
  | Some v => if 0 <? v then Some (v - origin) else None
  | None => None
  end.

(** The origin [_getData] subtracts: [timingData.navigationStart || 0]. *)
Definition origin_of (timing : PerformanceTiming) : Z :=
  js_or (get timing "navigationStart") 0.

(** [d'] holds the same milestones as [d], at the same offsets. *)
Definition same_times (d d' : gmap string Event) : Prop :=
  forall k, time <$> (d' !! k) = time <$> (d !! k).

(** [sec'] covers the catalog range of [sec]. *)
Definition same_range (sec sec' : Section_) : Prop :=
  firstEventIndex sec' = firstEventIndex sec /\
  lastEventIndex sec' = lastEventIndex sec.

(** The section as line 111-112 leave it when it has a present event. *)
Definition bounded (data : gmap string Event) (sec : Section_) : Section_ :=
  let sorted := sort_by (time_of data) (sectionEvents_of data sec) in
  set_endTime (time_of data (key_of (last sorted)))
    (set_startTime (time_of data (key_of (head sorted))) sec).

(** The block a catalog entry opens: the name before [Start], when the
    catalog also lists its [End] (lines 186-193). *)
Definition block_of (evt : string) : option string :=
  match str_indexOf "Start" evt with
  | Some startIndex =>
      let eventName := substr0 evt startIndex in
      if -1 <? indexOf eventsOrder (eventName +:+ "End") then Some eventName else None
  | None => None
  end.

(** What one iteration does, read off the milestones it finds. *)
Inductive action :=
| Skip
| Emit (o : Options)
| Raise.

Definition action_of (data : gmap string Event) (secs : list Section_)
    (evt : string) : action :=
  match data !! "hasOwnProperty" with
  | Some _ => Raise
  | None =>
      match data !! evt with
      | None => Skip
      | Some item =>
          match block_of evt with
          | None => Skip
          | Some eventName =>
              match data !! (eventName +:+ "End") with
              | None => Raise
              | Some e =>
                  match sectionIndex item ≫= (fun i => secs !! i) with
                  | None => Raise
                  | Some sectionData =>
                      Emit {| opt_color := color sectionData;
                              sectionTimeBounds :=
                                (startTime sectionData, endTime sectionData);
                              eventTimeBounds := (time item, time e);
                              opt_label := eventName |}
                  end
              end
          end
      end
  end.

Definition emitted (a : action) : option Options :=
  match a with
  | Emit o => Some o
  | _ => None
  end.

(** [d'] holds the milestones of [d] with the same offsets and sections. *)
Definition same_shape (d d' : gmap string Event) : Prop :=
  forall k, (fun e => (time e, sectionIndex e)) <$> (d' !! k) =
            (fun e => (time e, sectionIndex e)) <$> (d !! k).

(** The milestones [_getData] captures from a timing source. *)
Definition captured (timing : PerformanceTiming) (this : Profiler)
    (events : gmap string Event) : Prop :=
  (_getData (Some timing) this).2 = Some events.

(** The label and the time bounds a catalog entry contributes: those of a
    present [Start] whose [End] is in the catalog and present as well. *)
Definition pair_of (events : gmap string Event) (evt : string)
    : option (string * (Z * Z)) :=
  match events !! evt, block_of evt with
  | Some item, Some eventName =>
      match events !! (eventName +:+ "End") with
      | Some e => Some (eventName, (time item, time e))
      | None => None
      end
  | _, _ => None
  end.

Definition summary (o : Options) : string * (Z * Z) :=
  (opt_label o, eventTimeBounds o).

(** The section has a present event. *)
Definition section_present (events : gmap string Event) (sec : Section_) : bool :=
  match sectionEvents_of events sec with
  | [] => false
  | _ => true
  end.

(** A present entry that opens a block has its [End] present. *)
Definition block_closed (events : gmap string Event) (evt : string) : bool :=
  match events !! evt, block_of evt with
  | Some _, Some eventName => bool_decide (is_Some (events !! (eventName +:+ "End")))
  | _, _ => true
  end.

(** The captured milestones on which no stage dereferences [undefined]. *)
Definition well_formed (events : gmap string Event) : bool :=
  forallb (section_present events) _getSections &&
  forallb (block_closed events) eventsOrder.

(** The blocks a call emitted: none when it raised. *)
Definition rows_of (r : Profiler * completion (list Options)) : list Options :=
  match r.2 with
  | Normal rows => rows
  | Throw _ => []
  end.

(** The section a run of [xs] leaves a milestone tagged with: the last
    visited section among whose present events it is, [init] when there is
    none. *)
Definition tagged_by (d : gmap string Event) (s : list Section_)
    (xs : list nat) (k : string) (init : option nat) : option nat :=
  foldl (fun acc x =>
           match s !! x with
           | Some sec => if decide (k ∈ sectionEvents_of d sec) then Some x else acc
           | None => acc
           end) init xs.

(** The index of the section of [_getSections] whose catalog range holds
    the name [k]. *)
Definition section_of (k : string) : option nat :=
  foldl (fun acc i =>
           match _getSections !! i with
           | Some sec =>
               if decide (k ∈ slice eventsOrder (firstEventIndex sec)
                                    (lastEventIndex sec + 1))
               then Some i else acc
           | None => acc
           end) None (seq 0 (length _getSections)).

(** What the emission loop writes into the entry of [k] when it emits its
    block: [label] and [timeEnd] (lines 196-197). *)
Definition mark_of (d : gmap string Event) (secs : list Section_)
    (k : string) (e : Event) : Event :=
  match emitted (action_of d secs k) with
  | Some o => set_timeEnd (snd (eventTimeBounds o)) (set_label (opt_label o) e)
  | None => e
  end.

(** The line of lines 208-211 for a label and its bounds. *)
Definition line_of_pair (p : string * (Z * Z)) : string :=
  p.1 +:+ " " +:+ (show_number p.2.1 +:+ "-" +:+ show_number p.2.2)
      +:+ " ms<br>" +:+ newline.

(** The captured milestones on which [_init] returns: none is named
    [hasOwnProperty], every present [Start] of a block has its [End], and
    every section has a present milestone unless a milestone is itself
    named [undefined]. *)
Definition returns_on (events : gmap string Event) : bool :=
  negb (bool_decide (is_Some (events !! "hasOwnProperty"))) &&
  forallb (block_closed events) eventsOrder &&
  (forallb (section_present events) _getSections ||
   bool_decide (is_Some (events !! "undefined"))).

(** ** Timing sources used as examples *)

(** The entry [_getData] stores for an offset. *)
Definition fresh_event (t : Z) : Event := mkEvent t None None None.

(** A source whose fields are its own properties. *)
Definition own_timing (fields : list (string * Z)) : PerformanceTiming :=
  {| own_props := list_to_map fields; proto_props := ∅ |}.

(** A source with own properties [fields] and inherited ones [inherited]. *)
Definition mixed_timing (fields inherited : list (string * Z)) : PerformanceTiming :=
  {| own_props := list_to_map fields; proto_props := list_to_map inherited |}.

(** Milestones at the offsets 0, 120, 340 and 50. *)
Definition four_offsets : PerformanceTiming :=
  own_timing [("navigationStart", 1000); ("responseStart", 1120);
              ("loadEventEnd", 1340); ("fetchStart", 1050);
              ("redirectStart", 0)].

(** A field below the origin. *)
Definition early_field : PerformanceTiming :=
  own_timing [("navigationStart", 10); ("fetchStart", 5)].

(** A negative origin. *)
Definition negative_origin : PerformanceTiming :=
  own_timing [("navigationStart", -100); ("fetchStart", -95)].

(** An own property next to inherited timing attributes. *)
Definition shadowed : PerformanceTiming :=
  mixed_timing [("foo", 5)] [("navigationStart", 10); ("fetchStart", 15)].

(** [domainLookupStart] at the offset 10 without [domainLookupEnd]; every
    section has a present milestone. *)
Definition unpaired_start : PerformanceTiming :=
  own_timing [("navigationStart", 1000); ("domainLookupStart", 1010);
              ("domainLookupEnd", 0); ("requestStart", 1100);
              ("responseEnd", 1250); ("domLoading", 1300)].

(** No milestone of the server section. *)
Definition no_server : PerformanceTiming :=
  own_timing [("navigationStart", 1000); ("domainLookupStart", 1010);
              ("domainLookupEnd", 1040); ("requestStart", 0);
              ("responseStart", 0); ("responseEnd", 0); ("domLoading", 1300)].

(** [domainLookupStart] and [domainLookupEnd] at the offsets 10 and 40. *)
Definition lookup_only : PerformanceTiming :=
  own_timing [("navigationStart", 1000); ("domainLookupStart", 1010);
              ("domainLookupEnd", 1040)].

(** Only [requestStart] and [responseEnd], at the offsets 100 and 250 from
    a zero [navigationStart]. *)
Definition server_only : PerformanceTiming :=
  own_timing [("navigationStart", 0); ("requestStart", 100); ("responseEnd", 250)].

(** [requestStart] and [responseEnd] at the offsets 100 and 250, after a
    present [navigationStart]; nothing in the browser section. *)
Definition request_response : PerformanceTiming :=
  own_timing [("navigationStart", 1000); ("requestStart", 1100);
              ("responseEnd", 1250)].

Definition request_response_events : gmap string Event :=
  list_to_map [("navigationStart", mkEvent 0 None None None);
               ("requestStart", mkEvent 100 None None None);
               ("responseEnd", mkEvent 250 None None None)].

(** The server section as [_getSections] builds it. *)
Definition server : Section_ := mkSection "server" [255; 188; 0] 10 12 0 0.

(** A redirect and nothing after it. *)
Definition redirect_only : PerformanceTiming :=
  own_timing [("navigationStart", 1000); ("redirectStart", 1005);
              ("redirectEnd", 1020)].

(** A complete load with a redirect. *)
Definition full_load : PerformanceTiming :=
  own_timing [("navigationStart", 1000); ("redirectStart", 1005);
              ("redirectEnd", 1020); ("fetchStart", 1020);
              ("domainLookupStart", 1025); ("domainLookupEnd", 1040);
              ("connectStart", 1040); ("secureConnectionStart", 0);
              ("connectEnd", 1080); ("requestStart", 1100);
              ("responseStart", 1200); ("responseEnd", 1250);
              ("unloadEventStart", 0); ("unloadEventEnd", 0);
              ("domLoading", 1260); ("domInteractive", 1400);
              ("domContentLoadedEventStart", 1410);
              ("domContentLoadedEventEnd", 1420); ("domComplete", 1500);
              ("loadEventStart", 1500); ("loadEventEnd", 1510)].

(** Two blocks whose catalog order is the reverse of their time order. *)
Definition connect_before_lookup : PerformanceTiming :=
  own_timing [("navigationStart", 1000); ("domainLookupStart", 1050);
              ("domainLookupEnd", 1060); ("connectStart", 1020);
              ("connectEnd", 1030); ("requestStart", 1100);
              ("domLoading", 1300)].

(** A field named [undefined] and nothing in the server and browser
    sections. *)
Definition undefined_field : PerformanceTiming :=
  own_timing [("navigationStart", 1000); ("undefined", 1007);
              ("domainLookupStart", 1010); ("domainLookupEnd", 1040)].

(** A field named [hasOwnProperty] among milestones that are otherwise
    well-formed. *)
Definition shadowing_field : PerformanceTiming :=
  own_timing [("navigationStart", 1000); ("hasOwnProperty", 1005);
              ("requestStart", 1100); ("domLoading", 1300)].

(** A field named [__proto__], later than every other field. *)
Definition proto_field : PerformanceTiming :=
  own_timing [("navigationStart", 1000); ("__proto__", 2000);
              ("fetchStart", 1010)].

(** ** Properties of [_getData] *)

Section GetData.

Variable timing : PerformanceTiming.
Variable origin : Z.

Lemma getData_step_offset ev tot k :
  getData_step timing origin (ev, tot) k =
  match offset_of timing origin k with
  | Some t => (assign k (mkEvent t None None None) ev, Z.max tot t)
  | None => (ev, tot)
  end.
Proof.
  unfold getData_step, offset_of.
  destruct (get timing k) as [v|]; [|done].
  destruct (Z.ltb_spec 0 v) as [Hv|Hv].
  - destruct (Z.eqb_spec v 0) as [?|_]; [lia|]. simpl.
    f_equal. destruct (Z.ltb_spec tot (v - origin)); lia.
  - by rewrite andb_false_r.
Qed.

Lemma lookup_assign k v (ev : gmap string Event) j :
  assign k v ev !! j =
  if decide (j = k) then (if decide (k = "__proto__") then ev !! j else Some v)
  else ev !! j.
Proof.
  unfold assign. destruct (decide (j = k)) as [->|Hne].
  - destruct (decide (k = "__proto__")); [done|apply lookup_insert_eq].
  - destruct (decide (k = "__proto__")); [done|by apply lookup_insert_ne].
Qed.

Lemma getData_loop_spec l : forall ev tot ev' tot',
  foldl (getData_step timing origin) (ev, tot) l = (ev', tot') ->
  (forall k, ev' !! k =
     if decide (k ∈ l) then
       match offset_of timing origin k with
       | Some t =>
           if decide (k = "__proto__") then ev !! k
           else Some (mkEvent t None None None)
       | None => ev !! k
       end
     else ev !! k) /\
  tot <= tot' /\
  (forall k t, k ∈ l -> offset_of timing origin k = Some t -> t <= tot') /\
  (tot' = tot \/ exists k t, k ∈ l /\ offset_of timing origin k = Some t /\ t = tot').
Proof.
  induction l as [|x l IH]; intros ev tot ev' tot' Hrun; cbn [foldl] in Hrun.
  - injection Hrun as <- <-. split_and!; [| lia | | by left].
    + intros k. by rewrite decide_False by apply not_elem_of_nil.
    + intros k t Hk. by apply not_elem_of_nil in Hk.
  - rewrite getData_step_offset in Hrun.
    destruct (offset_of timing origin x) as [tx|] eqn:Hx.
    + apply IH in Hrun as (Hev & Hle & Hub & Hmax). split_and!.
      * intros k. rewrite Hev, lookup_assign. destruct (decide (k = x)) as [->|Hne].
        { rewrite Hx.
          rewrite (decide_True (P := x ∈ x :: l)) by apply list_elem_of_here.
          by destruct (decide (x ∈ l)), (decide (x = "__proto__")). }
        destruct (decide (k ∈ l)) as [Hin|Hin].
        -- rewrite decide_True; [done|]. by apply list_elem_of_further.
        -- rewrite decide_False; [done|]. by intros [?|?]%elem_of_cons.
      * lia.
      * intros k t [->|Hk]%elem_of_cons Hk'; [|by eauto].
        rewrite Hx in Hk'. injection Hk' as <-. lia.
      * destruct Hmax as [->|(k & t & Hk & Hk' & <-)].
        -- destruct (Z.max_spec tot tx) as [[_ ->]|[_ ->]]; [|by left].
           right. exists x, tx. split; [apply list_elem_of_here|done].
        -- right. exists k, t. split; [by apply list_elem_of_further|done].
    + apply IH in Hrun as (Hev & Hle & Hub & Hmax). split_and!.
      * intros k. rewrite Hev. destruct (decide (k = x)) as [->|Hne].
        { rewrite Hx.
          rewrite (decide_True (P := x ∈ x :: l)) by apply list_elem_of_here.
          by destruct (decide (x ∈ l)). }
        destruct (decide (k ∈ l)) as [Hin|Hin].
        -- rewrite decide_True; [done|]. by apply list_elem_of_further.
        -- rewrite decide_False; [done|]. by intros [?|?]%elem_of_cons.
      * done.
      * intros k t [->|Hk]%elem_of_cons Hk'; [congruence|by eauto].
      * destruct Hmax as [->|(k & t & Hk & Hk' & <-)]; [by left|].
        right. exists k, t. split; [by apply list_elem_of_further|done].
Qed.

(** The order in which [Object.keys] lists the fields does not matter. *)
Lemma getData_loop_perm l l' :
  l ≡ₚ l' -> getData_loop timing origin l = getData_loop timing origin l'.
Proof.
  intros Hp. unfold getData_loop.
  destruct (foldl _ _ l) as [ev tot] eqn:H.
  destruct (foldl _ _ l') as [ev' tot'] eqn:H'.
  apply getData_loop_spec in H as (Hev & Hle & Hub & Hmax).
  apply getData_loop_spec in H' as (Hev' & Hle' & Hub' & Hmax').
  f_equal.
  - apply map_eq. intros k. rewrite Hev, Hev'.
    destruct (decide (k ∈ l)) as [Hk|Hk].
    + rewrite decide_True; [done|]. by rewrite <- Hp.
    + rewrite decide_False; [done|]. by rewrite <- Hp.
  - apply Z.le_antisymm.
    + destruct Hmax as [->|(k & t & Hk & Ht & <-)]; [done|].
      apply (Hub' k); [by rewrite <- Hp|done].
    + destruct Hmax' as [->|(k & t & Hk & Ht & <-)]; [done|].
      apply (Hub k); [by rewrite Hp|done].
Qed.

End GetData.

Lemma elem_of_keys (m : gmap string Z) k : k ∈ keys m <-> is_Some (m !! k).
Proof.
  unfold keys. rewrite list_elem_of_fmap. split.
  - intros ([k' v] & -> & Hin). apply elem_of_map_to_list in Hin. by exists v.
  - intros [v Hv]. exists (k, v). split; [done|]. by apply elem_of_map_to_list.
Qed.


Lemma origin_of_get timing T0 :
  get timing "navigationStart" = Some T0 -> origin_of timing = T0.
Proof.
  unfold origin_of, js_or. intros ->. destruct (Z.eqb_spec T0 0); lia.
Qed.

(** What [_getData] returns and stores, field by field. *)
Lemma _getData_spec timing this :
  exists events total,
    _getData (Some timing) this =
      ({| totalTime := total; timingData := timingData this;
          sections := sections this |}, Some events) /\
    (forall k, events !! k =
       if decide (k ∈ _getPerfObjKeys timing) then
         match offset_of timing (origin_of timing) k with
         | Some t =>
             if decide (k = "__proto__") then None
             else Some (mkEvent t None None None)
         | None => None
         end
       else None) /\
    0 <= total /\
    (forall k t, k ∈ _getPerfObjKeys timing ->
       offset_of timing (origin_of timing) k = Some t -> t <= total) /\
    (total = 0 \/ exists k t, k ∈ _getPerfObjKeys timing /\
       offset_of timing (origin_of timing) k = Some t /\ t = total).
Proof.
  unfold _getData, getData_loop. fold (origin_of timing).
  destruct (foldl _ _ _) as [events total] eqn:Hrun.
  exists events, total. split; [done|].
  apply getData_loop_spec in Hrun as (Hev & Hle & Hub & Hmax).
  split_and!; [|done..].
  intros k. rewrite Hev, lookup_empty. by repeat case_match.
Qed.

(** ** The sort of [_matchEventsWithSections] *)

Section SortBy.

Variable f : string -> Z.

Lemma insert_by_perm x l : insert_by f x l ≡ₚ x :: l.
Proof.
  induction l as [|y l IH]; simpl; [done|].
  destruct (f x <=? f y); [done|].
  rewrite IH. apply Permutation_swap.
Qed.

Lemma sort_by_perm l : sort_by f l ≡ₚ l.
Proof.
  induction l as [|x l IH]; simpl; [done|].
  by rewrite insert_by_perm, IH.
Qed.

Lemma insert_by_sorted x l :
  StronglySorted (fun a b => f a <= f b) l ->
  StronglySorted (fun a b => f a <= f b) (insert_by f x l).
Proof.
  induction 1 as [|y l Hs IH Hy]; simpl.
  - repeat constructor.
  - destruct (Z.leb_spec (f x) (f y)) as [Hxy|Hxy].
    + constructor; [by constructor|].
      constructor; [done|]. eapply Forall_impl; [exact Hy|]. simpl. lia.
    + constructor; [done|].
      rewrite insert_by_perm. constructor; [lia|done].
Qed.

Lemma sort_by_sorted l : StronglySorted (fun a b => f a <= f b) (sort_by f l).
Proof.
  induction l as [|x l IH]; simpl; [constructor|by apply insert_by_sorted].
Qed.

Lemma sorted_head_min l a :
  StronglySorted (fun a b => f a <= f b) l -> head l = Some a ->
  forall k, k ∈ l -> f a <= f k.
Proof.
  intros Hs Hh k Hk. destruct Hs as [|y l Hs Hy]; [done|].
  injection Hh as ->. apply elem_of_cons in Hk as [->|Hk]; [lia|].
  by eapply Forall_forall in Hy.
Qed.

Lemma sorted_last_max l b :
  StronglySorted (fun a b => f a <= f b) l -> last l = Some b ->
  forall k, k ∈ l -> f k <= f b.
Proof.
  induction 1 as [|y l Hs IH Hy]; [done|]. intros Hl k Hk.
  destruct l as [|z l'].
  - injection Hl as <-. apply list_elem_of_singleton in Hk as ->. lia.
  - change (last (y :: z :: l')) with (last (z :: l')) in Hl.
    apply elem_of_cons in Hk as [->|Hk]; [|by apply IH].
    eapply Forall_forall in Hy; [exact Hy|]. by eapply last_Some_elem_of.
Qed.

(** The first element of the sorted array carries the least key and the
    last one the greatest, whatever the algorithm of the engine. *)
Lemma sort_by_head l a :
  head (sort_by f l) = Some a -> a ∈ l /\ forall k, k ∈ l -> f a <= f k.
Proof.
  intros Hh. split.
  - rewrite <- (sort_by_perm l). by eapply head_Some_elem_of.
  - intros k Hk. eapply sorted_head_min; [apply sort_by_sorted|done|].
    by rewrite sort_by_perm.
Qed.

Lemma sort_by_last l b :
  last (sort_by f l) = Some b -> b ∈ l /\ forall k, k ∈ l -> f k <= f b.
Proof.
  intros Hl. split.
  - rewrite <- (sort_by_perm l). by eapply last_Some_elem_of.
  - intros k Hk. eapply sorted_last_max; [apply sort_by_sorted|done|].
    by rewrite sort_by_perm.
Qed.

Lemma sort_by_nil_inv l : sort_by f l = [] -> l = [].
Proof.
  intros H. apply Permutation_nil_r. by rewrite <- H, sort_by_perm.
Qed.

End SortBy.

Lemma sort_by_ext f g l : (forall k, f k = g k) -> sort_by f l = sort_by g l.
Proof.
  intros Hfg. induction l as [|x l IH]; simpl; [done|]. rewrite IH.
  generalize (sort_by g l). intros l'.
  induction l' as [|y l' IH']; simpl; [done|]. by rewrite !Hfg, IH'.
Qed.

(** ** One section of [_matchEventsWithSections] *)

Lemma same_times_refl d : same_times d d.
Proof. by intros k. Qed.

Lemma same_times_trans d1 d2 d3 :
  same_times d1 d2 -> same_times d2 d3 -> same_times d1 d3.
Proof. intros H12 H23 k. by rewrite H23, H12. Qed.

Lemma same_times_is_Some d d' k :
  same_times d d' -> is_Some (d' !! k) <-> is_Some (d !! k).
Proof. intros H. by rewrite <- !(fmap_is_Some time), H. Qed.

Lemma same_times_None d d' k : same_times d d' -> d !! k = None -> d' !! k = None.
Proof.
  intros H Hk. apply eq_None_not_Some. rewrite (same_times_is_Some d d' k H).
  by rewrite Hk; intros [? ?].
Qed.

Lemma same_times_time_of d d' k : same_times d d' -> time_of d' k = time_of d k.
Proof.
  intros H. unfold time_of. specialize (H k).
  destruct (d' !! k), (d !! k); simpl in H; congruence.
Qed.

Lemma sectionEvents_of_ext d d' sec sec' :
  same_times d d' -> same_range sec sec' ->
  sectionEvents_of d' sec' = sectionEvents_of d sec.
Proof.
  intros Hd [Hf Hl]. unfold sectionEvents_of. rewrite Hf, Hl.
  apply list_filter_iff.
  intros k. by apply same_times_is_Some.
Qed.

Lemma bounded_ext d d' sec :
  same_times d d' -> bounded d' sec = bounded d sec.
Proof.
  intros Hd. unfold bounded.
  rewrite (sectionEvents_of_ext d d' sec sec Hd) by done.
  rewrite (sort_by_ext (time_of d') (time_of d))
    by (intros; by apply same_times_time_of).
  by rewrite !(same_times_time_of d d').
Qed.

Lemma sectionEvents_of_present d sec k :
  k ∈ sectionEvents_of d sec -> is_Some (d !! k).
Proof. unfold sectionEvents_of. by intros [? _]%list_elem_of_filter. Qed.

Lemma tag_event_lookup i d x k :
  tag_event i d x !! k =
  if decide (k = x) then set_sectionIndex i <$> d !! k else d !! k.
Proof.
  unfold tag_event. destruct (decide (k = x)) as [->|Hne].
  - destruct (d !! x) as [e|] eqn:He; [by rewrite lookup_insert_eq|by rewrite He].
  - destruct (d !! x) as [e|]; [by rewrite lookup_insert_ne|done].
Qed.

Lemma tag_all_lookup i l : forall d k,
  foldl (tag_event i) d l !! k =
  if decide (k ∈ l) then set_sectionIndex i <$> d !! k else d !! k.
Proof.
  induction l as [|x l IH]; intros d k; cbn [foldl].
  - by rewrite decide_False by apply not_elem_of_nil.
  - rewrite IH, tag_event_lookup.
    destruct (decide (k = x)) as [->|Hne].
    + rewrite (decide_True (P := x ∈ x :: l)) by apply list_elem_of_here.
      destruct (decide (x ∈ l)); [|done]. by destruct (d !! x).
    + destruct (decide (k ∈ l)) as [Hin|Hin].
      * rewrite decide_True; [done|]. by apply list_elem_of_further.
      * rewrite decide_False; [done|]. by intros [?|?]%elem_of_cons.
Qed.

Lemma tag_all_same_times i l d : same_times d (foldl (tag_event i) d l).
Proof.
  intros k. rewrite tag_all_lookup.
  destruct (decide (k ∈ l)); [|done]. by destruct (d !! k).
Qed.

(** ** The filter of line 101 *)

(** Without a milestone named [hasOwnProperty] the filter keeps the names
    that are milestones. *)
Lemma filter_with_own data l :
  data !! "hasOwnProperty" = None ->
  filter_with (hasOwnProperty data) l =
    Normal (filter (fun el => is_Some (data !! el)) l).
Proof.
  intros Hown. induction l as [|x l IH]; [done|].
  cbn [filter_with]. rewrite IH. unfold hasOwnProperty at 1. rewrite Hown.
  rewrite filter_cons. destruct (decide (is_Some (data !! x))) as [Hx|Hx].
  - by rewrite bool_decide_eq_true_2.
  - by rewrite bool_decide_eq_false_2.
Qed.

(** With one, the first call of the callback raises. *)
Lemma filter_with_shadowed data x l :
  is_Some (data !! "hasOwnProperty") ->
  filter_with (hasOwnProperty data) (x :: l) = Throw TypeError.
Proof.
  intros [e He]. cbn [filter_with]. unfold hasOwnProperty at 1. by rewrite He.
Qed.

(** Whenever the filter returns, it kept the names that are milestones. *)
Lemma filter_with_Normal data l r :
  filter_with (hasOwnProperty data) l = Normal r ->
  r = filter (fun el => is_Some (data !! el)) l.
Proof.
  destruct (data !! "hasOwnProperty") as [e|] eqn:Hown.
  - destruct l as [|x l].
    + by intros [= <-].
    + by rewrite filter_with_shadowed.
  - rewrite filter_with_own by done. by intros [= <-].
Qed.

Lemma match_section_own data secs i :
  data !! "hasOwnProperty" = None ->
  match_section (data, secs) i =
  match secs !! i with
  | None => ((data, secs), Throw TypeError)
  | Some sec =>
      match data !! key_of (head (sort_by (time_of data) (sectionEvents_of data sec))) with
      | None => ((data, secs), Throw TypeError)
      | Some fe =>
          match data !! key_of (last (sort_by (time_of data) (sectionEvents_of data sec))) with
          | None => ((data, alter (set_startTime (time fe)) i secs), Throw TypeError)
          | Some le =>
              ((foldl (tag_event i) data
                  (sort_by (time_of data) (sectionEvents_of data sec)),
                alter (set_endTime (time le)) i
                  (alter (set_startTime (time fe)) i secs)), Normal tt)
          end
      end
  end.
Proof.
  intros Hown. unfold match_section. destruct (secs !! i) as [sec|]; [|done].
  cbv zeta. by rewrite filter_with_own.
Qed.

(** A milestone named [hasOwnProperty] makes the iteration raise at its
    first call of the callback, before anything is written. *)
Lemma match_section_shadowed data secs i sec :
  is_Some (data !! "hasOwnProperty") -> secs !! i = Some sec ->
  slice eventsOrder (firstEventIndex sec) (lastEventIndex sec + 1) <> [] ->
  match_section (data, secs) i = ((data, secs), Throw TypeError).
Proof.
  intros Hown Hsec Hne. unfold match_section. rewrite Hsec. cbv zeta.
  destruct (slice eventsOrder _ _) as [|x l]; [done|].
  by rewrite filter_with_shadowed.
Qed.

(** ** One section, once the filter has returned *)

(** A section with a present event is bounded and its events are tagged. *)
Lemma match_section_nonempty data secs i sec :
  data !! "hasOwnProperty" = None ->
  secs !! i = Some sec -> sectionEvents_of data sec <> [] ->
  match_section (data, secs) i =
    ((foldl (tag_event i) data (sort_by (time_of data) (sectionEvents_of data sec)),
      alter (fun _ => bounded data sec) i secs), Normal tt).
Proof.
  intros Hown Hsec Hne. rewrite match_section_own by done. rewrite Hsec.
  set (sorted := sort_by (time_of data) (sectionEvents_of data sec)).
  assert (sorted <> []) as Hs.
  { intros H. apply Hne. by eapply sort_by_nil_inv. }
  destruct (head sorted) as [a|] eqn:Ha; [|by apply head_None in Ha].
  destruct (last sorted) as [b|] eqn:Hb; [|by apply last_None in Hb].
  pose proof (sort_by_head _ _ _ Ha) as [[ea Hea]%sectionEvents_of_present _].
  pose proof (sort_by_last _ _ _ Hb) as [[eb Heb]%sectionEvents_of_present _].
  simpl. rewrite Hea, Heb. do 2 f_equal.
  rewrite list_alter_alter_eq. apply list_alter_ext; [|done].
  intros sec' Hsec'. assert (sec' = sec) as -> by congruence.
  unfold bounded. fold sorted. rewrite Ha, Hb. simpl.
  unfold time_of. by rewrite Hea, Heb.
Qed.

(** A section without any present event dereferences [undefined], unless
    its filter has raised already. *)
Lemma match_section_empty data secs i sec :
  secs !! i = Some sec -> sectionEvents_of data sec = [] ->
  data !! "undefined" = None ->
  match_section (data, secs) i = ((data, secs), Throw TypeError).
Proof.
  intros Hsec He Hu. unfold match_section. rewrite Hsec. cbv zeta.
  destruct (filter_with _ _) as [r|[]] eqn:Hf; [|done].
  apply filter_with_Normal in Hf. fold (sectionEvents_of data sec) in Hf.
  rewrite Hf, He. simpl. by rewrite Hu.
Qed.

(** The bounds written into a section are the least and the greatest
    offset of its present events. *)
Lemma bounded_min_max data sec :
  sectionEvents_of data sec <> [] ->
  (exists k, k ∈ sectionEvents_of data sec /\
      time_of data k = startTime (bounded data sec)) /\
  (forall k, k ∈ sectionEvents_of data sec ->
      startTime (bounded data sec) <= time_of data k) /\
  (exists k, k ∈ sectionEvents_of data sec /\
      time_of data k = endTime (bounded data sec)) /\
  (forall k, k ∈ sectionEvents_of data sec ->
      time_of data k <= endTime (bounded data sec)).
Proof.
  intros Hne. unfold bounded.
  set (sorted := sort_by (time_of data) (sectionEvents_of data sec)).
  assert (sorted <> []) as Hs.
  { intros H. apply Hne. by eapply sort_by_nil_inv. }
  destruct (head sorted) as [a|] eqn:Ha; [|by apply head_None in Ha].
  destruct (last sorted) as [b|] eqn:Hb; [|by apply last_None in Hb].
  pose proof (sort_by_head _ _ _ Ha) as [Hain Hamin].
  pose proof (sort_by_last _ _ _ Hb) as [Hbin Hbmax].
  simpl. split_and!; eauto.
Qed.

(** ** The loop over the sections *)

Lemma for_each_app {S X} (body : S -> X -> S * completion unit) s xs ys :
  for_each body s (xs ++ ys) =
  match for_each body s xs with
  | (s', Normal _) => for_each body s' ys
  | (s', Throw e) => (s', Throw e)
  end.
Proof.
  revert s. induction xs as [|x xs IH]; intros s; simpl; [done|].
  destruct (body s x) as [s1 [[]|e]]; [apply IH|done].
Qed.

(** Whatever its outcome, one iteration alters section [x] only, within
    its catalog range, and tags events with [x] only. *)
Lemma match_section_shape d s x d' s' c :
  match_section (d, s) x = ((d', s'), c) ->
  exists g l, (forall sec, same_range sec (g sec)) /\
              s' = alter g x s /\ d' = foldl (tag_event x) d l.
Proof.
  unfold match_section. intros H.
  destruct (s !! x) as [sec|].
  2:{ injection H as <- <- <-. exists id, []. by rewrite list_alter_id. }
  cbv zeta in H. destruct (filter_with _ _) as [r|e].
  2:{ injection H as <- <- <-. exists id, []. by rewrite list_alter_id. }
  destruct (d !! key_of (head _)) as [fe|].
  2:{ injection H as <- <- <-. exists id, []. by rewrite list_alter_id. }
  destruct (d !! key_of (last _)) as [le|].
  - injection H as <- <- <-.
    exists (set_endTime (time le) ∘ set_startTime (time fe)). eexists.
    split; [done|]. by rewrite list_alter_alter_eq.
  - injection H as <- <- <-. by exists (set_startTime (time fe)), [].
Qed.

Lemma match_section_inv d s x d' s' c :
  match_section (d, s) x = ((d', s'), c) ->
  same_times d d' /\ length s' = length s /\
  (forall j sec, s !! j = Some sec ->
     exists sec', s' !! j = Some sec' /\ same_range sec sec') /\
  (forall j, j <> x -> s' !! j = s !! j) /\
  (forall k e', d' !! k = Some e' ->
     exists e, d !! k = Some e /\
       (sectionIndex e' = sectionIndex e \/ sectionIndex e' = Some x)).
Proof.
  intros (g & l & Hg & -> & ->)%match_section_shape. split_and!.
  - apply tag_all_same_times.
  - apply length_alter.
  - intros j sec Hj. rewrite list_lookup_alter.
    destruct (decide (x = j)) as [->|_]; [|by exists sec].
    rewrite Hj. simpl. eauto.
  - intros j Hj. by apply list_lookup_alter_ne.
  - intros k e'. rewrite tag_all_lookup.
    destruct (decide (k ∈ l)); [|by eauto].
    destruct (d !! k) as [e0|]; [|done]. intros [= <-]. eauto.
Qed.

Lemma match_loop_inv xs : forall d s d' s' c,
  for_each match_section (d, s) xs = ((d', s'), c) ->
  same_times d d' /\ length s' = length s /\
  (forall j sec, s !! j = Some sec ->
     exists sec', s' !! j = Some sec' /\ same_range sec sec') /\
  (forall j, j ∉ xs -> s' !! j = s !! j) /\
  (forall k e', d' !! k = Some e' ->
     exists e, d !! k = Some e /\
       (sectionIndex e' = sectionIndex e \/
        exists x, x ∈ xs /\ sectionIndex e' = Some x)).
Proof.
  induction xs as [|x xs IH]; intros d s d' s' c H; simpl in H.
  - injection H as <- <- <-. split_and!; eauto using same_times_refl.
    intros j sec ?. by exists sec.
  - destruct (match_section (d, s) x) as [[d1 s1] c1] eqn:H1.
    apply match_section_inv in H1 as (Ht1 & Hl1 & Hr1 & Hf1 & Hs1).
    assert (same_times d d' /\ length s' = length s /\
      (forall j sec, s !! j = Some sec ->
         exists sec', s' !! j = Some sec' /\ same_range sec sec') /\
      (forall j, j ∉ x :: xs -> s' !! j = s !! j) /\
      (forall k e', d' !! k = Some e' ->
         exists e, d !! k = Some e /\
           (sectionIndex e' = sectionIndex e \/
            exists y, y ∈ x :: xs /\ sectionIndex e' = Some y)) \/
      (d' = d1 /\ s' = s1)) as [?|[-> ->]]; [|done|].
    { destruct c1 as [[]|e]; [|injection H as <- <- <-; by right].
      left. apply IH in H as (Ht & Hl & Hr & Hf & Hs). split_and!.
      - by eapply same_times_trans.
      - congruence.
      - intros j sec Hj. destruct (Hr1 j sec Hj) as (sec1 & Hj1 & [Ha Hb]).
        destruct (Hr j sec1 Hj1) as (sec' & Hj' & [Ha' Hb']).
        exists sec'. split; [done|]. split; congruence.
      - intros j Hj. rewrite Hf, Hf1; [done|..].
        + intros ->. apply Hj, list_elem_of_here.
        + intros Hin. by apply Hj, list_elem_of_further.
      - intros k e' Hk. destruct (Hs k e' Hk) as (e1 & Hk1 & Hi).
        destruct (Hs1 k e1 Hk1) as (e & Hk0 & Hi1). exists e. split; [done|].
        destruct Hi as [Hi|(y & Hy & Hi)].
        + destruct Hi1 as [Hi1|Hi1]; [left; congruence|].
          right. exists x. split; [apply list_elem_of_here|congruence].
        + right. exists y. split; [by apply list_elem_of_further|done]. }
    split_and!; [done..| |].
    + intros j Hj. apply Hf1. intros ->. apply Hj, list_elem_of_here.
    + intros k e' Hk. destruct (Hs1 k e' Hk) as (e & Hk0 & [Hi|Hi]); eauto.
      exists e. split; [done|]. right. exists x.
      split; [apply list_elem_of_here|done].
Qed.

(** A section without a present event makes the loop raise, and the
    section is left as it was. *)
Lemma match_loop_throw xs : forall d s i sec,
  i ∈ xs -> s !! i = Some sec -> sectionEvents_of d sec = [] ->
  d !! "undefined" = None ->
  exists d' s', for_each match_section (d, s) xs = ((d', s'), Throw TypeError) /\
                s' !! i = Some sec.
Proof.
  induction xs as [|x xs IH]; intros d s i sec Hi Hsec He Hu.
  - by apply not_elem_of_nil in Hi.
  - simpl. destruct (match_section (d, s) x) as [[d1 s1] c1] eqn:H1.
    destruct (decide (i = x)) as [->|Hne].
    { rewrite (match_section_empty d s x sec) in H1 by done.
      injection H1 as <- <- <-. by exists d, s. }
    apply elem_of_cons in Hi as [?|Hi]; [done|].
    apply match_section_inv in H1 as (Ht1 & _ & _ & Hf1 & _).
    assert (s1 !! i = Some sec) as Hsec1 by (by rewrite Hf1).
    destruct c1 as [[]|[]]; [|by exists d1, s1].
    apply (IH d1 s1 i sec); [done..| |].
    + by rewrite (sectionEvents_of_ext d d1 sec sec).
    + by eapply same_times_None.
Qed.

(** When every visited section has a present event the loop completes,
    every such section is bounded and every such event is tagged. *)
Lemma match_loop_complete xs : forall d s,
  d !! "hasOwnProperty" = None ->
  NoDup xs ->
  (forall i, i ∈ xs -> exists sec, s !! i = Some sec /\ sectionEvents_of d sec <> []) ->
  exists d' s',
    for_each match_section (d, s) xs = ((d', s'), Normal tt) /\
    (forall i sec, i ∈ xs -> s !! i = Some sec -> s' !! i = Some (bounded d sec)) /\
    (forall i sec k, i ∈ xs -> s !! i = Some sec -> k ∈ sectionEvents_of d sec ->
       exists e' x, d' !! k = Some e' /\ sectionIndex e' = Some x /\ x ∈ xs).
Proof.
  induction xs as [|x xs IH]; intros d s Hown Hnd Hall.
  - exists d, s. split; [done|]. split; intros i sec; [|intros k]; by intros ?%not_elem_of_nil.
  - apply NoDup_cons in Hnd as [Hx Hnd].
    destruct (Hall x) as (secx & Hsecx & Hnex); [apply list_elem_of_here|].
    simpl. rewrite (match_section_nonempty d s x secx) by done.
    set (d1 := foldl (tag_event x) d _).
    set (s1 := alter _ x s).
    assert (same_times d d1) as Ht1 by apply tag_all_same_times.
    assert (forall i, i ∈ xs -> s1 !! i = s !! i) as Hs1.
    { intros i Hi. apply list_lookup_alter_ne. by intros ->. }
    destruct (IH d1 s1) as (d' & s' & Hrun & Hb & Htag); [|exact Hnd| |].
    { by eapply same_times_None. }
    { intros i Hi. destruct (Hall i) as (sec & Hsec & Hne);
        [by apply list_elem_of_further|].
      exists sec. rewrite Hs1 by done. split; [done|].
      by rewrite (sectionEvents_of_ext d d1 sec sec). }
    exists d', s'. split; [done|].
    apply match_loop_inv in Hrun as (Ht & _ & _ & Hf & Hs).
    split.
    + intros i sec [->|Hi]%elem_of_cons Hsec.
      * rewrite Hf by done. unfold s1. rewrite list_lookup_alter_eq, Hsecx.
        simpl. congruence.
      * rewrite (Hb i sec Hi) by (by rewrite Hs1). by rewrite (bounded_ext d d1).
    + intros i sec k [->|Hi]%elem_of_cons Hsec Hk.
      * assert (secx = sec) as <- by congruence.
        destruct (sectionEvents_of_present _ _ _ Hk) as [e He].
        assert (d1 !! k = Some (set_sectionIndex x e)) as Hk1.
        { unfold d1. rewrite tag_all_lookup, decide_True, He; [done|].
          by rewrite sort_by_perm. }
        destruct (proj2 (same_times_is_Some d1 d' k Ht) (mk_is_Some _ _ Hk1))
          as [e' He'].
        destruct (Hs k e' He') as (e1 & He1 & Hi).
        assert (e1 = set_sectionIndex x e) as -> by congruence.
        exists e'. destruct Hi as [Hi|(y & Hy & Hi)].
        -- exists x. split; [done|]. split; [done|apply list_elem_of_here].
        -- exists y. split; [done|]. split; [done|by apply list_elem_of_further].
      * destruct (Htag i sec k Hi) as (e' & y & He' & Hy & Hin).
        -- by rewrite Hs1.
        -- by rewrite (sectionEvents_of_ext d d1 sec sec).
        -- exists e', y. split; [done|]. split; [done|by apply list_elem_of_further].
Qed.

(** ** The emission loop of [_init] *)

Lemma same_shape_refl d : same_shape d d.
Proof. by intros k. Qed.

Lemma same_shape_trans d1 d2 d3 :
  same_shape d1 d2 -> same_shape d2 d3 -> same_shape d1 d3.
Proof. intros H12 H23 k. by rewrite H23, H12. Qed.

Lemma same_shape_insert d k e e' :
  d !! k = Some e -> time e' = time e -> sectionIndex e' = sectionIndex e ->
  same_shape d (<[k := e']> d).
Proof.
  intros Hk Ht Hs j. destruct (decide (j = k)) as [->|Hne].
  - rewrite lookup_insert_eq, Hk. simpl. congruence.
  - by rewrite lookup_insert_ne.
Qed.

Lemma action_of_ext d d' secs evt :
  same_shape d d' -> action_of d' secs evt = action_of d secs evt.
Proof.
  intros H. unfold action_of. pose proof (H "hasOwnProperty") as Hown.
  destruct (d' !! "hasOwnProperty"), (d !! "hasOwnProperty");
    simpl in Hown; try done.
  pose proof (H evt) as Hevt.
  destruct (d' !! evt) as [i'|], (d !! evt) as [i|]; simpl in Hevt; try done.
  injection Hevt as Ht Hs.
  destruct (block_of evt) as [b|]; [|done].
  pose proof (H (b +:+ "End")) as Hend.
  destruct (d' !! (b +:+ "End")) as [e'|], (d !! (b +:+ "End")) as [e|];
    simpl in Hend; try done.
  injection Hend as Ht' _. by rewrite Hs, Ht, Ht'.
Qed.

Lemma emit_step_spec secs st evt st' c :
  emit_step secs st evt = (st', c) ->
  same_shape (ls_data st) (ls_data st') /\
  match action_of (ls_data st) secs evt with
  | Skip => c = Normal tt /\ ls_output st' = ls_output st
  | Emit o => c = Normal tt /\ ls_output st' = ls_output st ++ [o]
  | Raise => c = Throw TypeError /\ ls_output st' = ls_output st
  end.
Proof.
  unfold emit_step, hasOwnProperty, action_of, block_of. intros H.
  destruct (ls_data st !! "hasOwnProperty") as [own|].
  { injection H as <- <-. split; [apply same_shape_refl|done]. }
  destruct (ls_data st !! evt) as [item|] eqn:Hitem.
  2:{ injection H as <- <-. split; [apply same_shape_refl|done]. }
  destruct (str_indexOf "Start" evt) as [startIndex|].
  2:{ injection H as <- <-. split; [apply same_shape_refl|done]. }
  cbv zeta in *.
  set (eventName := substr0 evt startIndex) in *.
  destruct (-1 <? indexOf eventsOrder (eventName +:+ "End")).
  2:{ injection H as <- <-. split; [apply same_shape_refl|done]. }
  assert (same_shape (ls_data st)
            (<[evt := set_label eventName item]> (ls_data st))) as H1.
  { by eapply same_shape_insert. }
  assert (forall k e, <[evt := set_label eventName item]> (ls_data st) !! k = Some e ->
            exists e0, ls_data st !! k = Some e0 /\ time e0 = time e) as Hlk.
  { intros k e. destruct (decide (k = evt)) as [->|Hne].
    - rewrite lookup_insert_eq. intros [= <-]. eauto.
    - rewrite lookup_insert_ne by done. eauto. }
  destruct (<[evt := set_label eventName item]> (ls_data st) !! (eventName +:+ "End"))
    as [e|] eqn:He.
  - destruct (Hlk _ _ He) as (e0 & -> & Hte0).
    assert (same_shape (ls_data st)
      (<[evt := set_timeEnd (time e) (set_label eventName item)]>
         (<[evt := set_label eventName item]> (ls_data st)))) as H2.
    { eapply same_shape_trans; [exact H1|].
      eapply same_shape_insert; [apply lookup_insert_eq|done..]. }
    simpl in H.
    destruct (sectionIndex item ≫= _) as [sectionData|];
      injection H as <- <-; (split; [exact H2|]); simpl; [|done].
    by rewrite Hte0.
  - assert (ls_data st !! (eventName +:+ "End") = None) as ->.
    { apply eq_None_not_Some. intros [e0 He0].
      pose proof (H1 (eventName +:+ "End")) as Hk. by rewrite He, He0 in Hk. }
    injection H as <- <-. by split.
Qed.

Lemma omap_pointwise {A B} (f g : A -> option B) (l : list A) :
  (forall x, f x = g x) -> omap f l = omap g l.
Proof.
  intros Hfg. induction l as [|x l IH]; [done|].
  cbn [omap list_omap]. by rewrite Hfg, IH.
Qed.

Lemma emit_loop_spec secs xs : forall st st' c,
  for_each (emit_step secs) st xs = (st', c) ->
  same_shape (ls_data st) (ls_data st') /\
  match c with
  | Normal _ =>
      Forall (fun evt => action_of (ls_data st) secs evt <> Raise) xs /\
      ls_output st' =
        ls_output st ++ omap (fun evt => emitted (action_of (ls_data st) secs evt)) xs
  | Throw _ => Exists (fun evt => action_of (ls_data st) secs evt = Raise) xs
  end.
Proof.
  induction xs as [|x xs IH]; intros st st' c H; simpl in H.
  - injection H as <- <-. split; [apply same_shape_refl|].
    split; [constructor|]. simpl. by rewrite app_nil_r.
  - destruct (emit_step secs st x) as [st1 c1] eqn:H1.
    apply emit_step_spec in H1 as [Hs1 Ha].
    destruct c1 as [[]|e1].
    + apply IH in H as [Hs Hc]. split; [by eapply same_shape_trans|].
      assert (forall evt, action_of (ls_data st1) secs evt =
                          action_of (ls_data st) secs evt) as Hext.
      { intros evt. by apply action_of_ext. }
      destruct c as [[]|e].
      * destruct Hc as [Hall Hout]. split.
        -- constructor.
           ++ destruct (action_of (ls_data st) secs x); by destruct Ha.
           ++ eapply Forall_impl; [exact Hall|]. intros evt. simpl.
              by rewrite Hext.
        -- rewrite Hout. cbn [omap list_omap].
           rewrite (omap_pointwise _
                      (fun evt => emitted (action_of (ls_data st) secs evt)))
             by (intros evt; by rewrite Hext).
           destruct (action_of (ls_data st) secs x); destruct Ha as [_ ->];
             simpl; by rewrite <- ?app_assoc.
      * apply Exists_cons_tl. eapply Exists_impl; [exact Hc|].
        intros evt. simpl. by rewrite Hext.
    + injection H as <- <-. split; [done|].
      apply Exists_cons_hd.
      destruct (action_of (ls_data st) secs x); by destruct Ha.
Qed.

(** ** [_init] as the composition of its three stages *)

Lemma _init_unsupported this :
  _init None this =
    ({| totalTime := totalTime this; timingData := None;
        sections := _getSections |}, Throw TypeError).
Proof. reflexivity. Qed.

Lemma _init_Some timing this events total :
  _getData (Some timing) this =
    ({| totalTime := total; timingData := timingData this;
        sections := sections this |}, Some events) ->
  _init (Some timing) this =
    match for_each match_section (events, _getSections) [0; 1; 2]%nat with
    | ((d3, s3), Throw e) =>
        ({| totalTime := total; timingData := Some d3; sections := s3 |}, Throw e)
    | ((d3, s3), Normal _) =>
        match for_each (emit_step s3) (mkLoop d3 [] []) eventsOrder with
        | (st, Throw e) =>
            ({| totalTime := total; timingData := Some (ls_data st);
                sections := s3 |}, Throw e)
        | (st, Normal _) =>
            ({| totalTime := total; timingData := Some (ls_data st);
                sections := s3 |}, Normal (ls_output st))
        end
    end.
Proof.
  intros H. unfold _init. rewrite H.
  change (_matchEventsWithSections ?t) with
    (let '((data', sections'), c) :=
       for_each match_section (events, _getSections) [0; 1; 2]%nat in
     ({| totalTime := total; timingData := Some data'; sections := sections' |}, c)).
  destruct (for_each match_section _ _) as [[d3 s3] [[]|e]]; [|reflexivity].
  cbn [timingData sections totalTime].
  lazymatch goal with
  | |- context [match _getSections with [] => ?a | _ :: _ => ?b end] =>
      change (match _getSections with [] => a | _ :: _ => b end) with b
  end.
  cbn [timingData sections totalTime].
  by destruct (for_each (emit_step s3) _ _) as [st [[]|e]].
Qed.

(** ** From the captured milestones to the emitted blocks *)

Lemma captured_spec timing this events :
  captured timing this events ->
  _getData (Some timing) this =
    ({| totalTime := totalTime (_getData (Some timing) this).1;
        timingData := timingData this; sections := sections this |},
     Some events).
Proof.
  unfold captured.
  destruct (_getData_spec timing this) as (ev & total & -> & _).
  simpl. by intros [= ->].
Qed.

Ltac solve_elem :=
  repeat first [apply list_elem_of_here | apply list_elem_of_further].

(** Every catalog entry lies in the range of one of the three sections. *)
Lemma catalog_covered evt :
  evt ∈ eventsOrder ->
  exists i sec, i ∈ [0; 1; 2]%nat /\ _getSections !! i = Some sec /\
    evt ∈ slice eventsOrder (firstEventIndex sec) (lastEventIndex sec + 1).
Proof.
  assert (eventsOrder =
    slice eventsOrder 0 (9 + 1) ++ slice eventsOrder 10 (12 + 1) ++
    slice eventsOrder 13 (23 + 1)) as Hsplit by reflexivity.
  intros Hin. rewrite Hsplit in Hin.
  apply elem_of_app in Hin as [Hin|[Hin|Hin]%elem_of_app].
  - exists 0%nat. eexists. split; [solve_elem|]. split; [reflexivity|exact Hin].
  - exists 1%nat. eexists. split; [solve_elem|]. split; [reflexivity|exact Hin].
  - exists 2%nat. eexists. split; [solve_elem|]. split; [reflexivity|exact Hin].
Qed.

Lemma summary_of_action events d3 s3 evt :
  same_times events d3 -> action_of d3 s3 evt <> Raise ->
  summary <$> emitted (action_of d3 s3 evt) = pair_of events evt.
Proof.
  intros Ht. unfold action_of, pair_of.
  destruct (d3 !! "hasOwnProperty"); [done|].
  pose proof (Ht evt) as Hevt.
  destruct (d3 !! evt) as [i3|], (events !! evt) as [i0|]; simpl in Hevt; try done.
  injection Hevt as Hti.
  destruct (block_of evt) as [b|]; [|done].
  pose proof (Ht (b +:+ "End")) as Hend.
  destruct (d3 !! (b +:+ "End")) as [e3|], (events !! (b +:+ "End")) as [e0|];
    simpl in Hend; try done.
  injection Hend as Hte.
  destruct (sectionIndex i3 ≫= _) as [sd|]; [|done].
  intros _. simpl. unfold summary. simpl. by rewrite Hti, Hte.
Qed.

Lemma summary_rows events d3 s3 xs :
  same_times events d3 ->
  Forall (fun evt => action_of d3 s3 evt <> Raise) xs ->
  summary <$> omap (fun evt => emitted (action_of d3 s3 evt)) xs =
  omap (pair_of events) xs.
Proof.
  intros Ht. induction 1 as [|x xs Hx _ IH]; [done|].
  cbn [omap list_omap]. rewrite <- (summary_of_action events d3 s3 x) by done.
  rewrite <- IH. by destruct (emitted (action_of d3 s3 x)).
Qed.

(** Whenever [_init] completes, the labels and bounds of its blocks are
    those of the paired entries, in the order of the catalog. *)
Lemma _init_rows timing this events this' rows :
  captured timing this events ->
  _init (Some timing) this = (this', Normal rows) ->
  summary <$> rows = omap (pair_of events) eventsOrder.
Proof.
  intros Hc%captured_spec. rewrite (_init_Some _ _ _ _ Hc).
  destruct (for_each match_section _ _) as [[d3 s3] [[]|e]] eqn:Hm; [|done].
  apply match_loop_inv in Hm as (Ht & _).
  destruct (for_each (emit_step s3) _ _) as [st [[]|e]] eqn:He; [|done].
  apply emit_loop_spec in He as (_ & Hall & Hout).
  cbn [ls_data ls_output] in Hall, Hout. rewrite app_nil_l in Hout.
  intros [= <- <-]. rewrite Hout. by apply summary_rows.
Qed.

Lemma well_formed_sections events i :
  well_formed events = true -> i ∈ [0; 1; 2]%nat ->
  exists sec, _getSections !! i = Some sec /\ sectionEvents_of events sec <> [].
Proof.
  unfold well_formed. intros [Hs _]%andb_prop Hi.
  rewrite forallb_forall in Hs.
  assert (exists sec, _getSections !! i = Some sec) as [sec Hsec].
  { apply lookup_lt_is_Some. apply list_elem_of_lookup in Hi as (j & Hj).
    change (length _getSections) with 3%nat.
    repeat (destruct j as [|j]; [injection Hj as <-; lia|]). done. }
  exists sec. split; [done|].
  specialize (Hs sec). unfold section_present in Hs.
  intros Hnil. rewrite Hnil in Hs. apply Bool.diff_false_true, Hs.
  apply list_elem_of_In. by eapply list_elem_of_lookup_2.
Qed.

Lemma well_formed_blocks events evt b :
  well_formed events = true -> evt ∈ eventsOrder ->
  is_Some (events !! evt) -> block_of evt = Some b ->
  is_Some (events !! (b +:+ "End")).
Proof.
  unfold well_formed. intros [_ Hb]%andb_prop Hin [item Hitem] Hblock.
  rewrite forallb_forall in Hb. specialize (Hb evt).
  unfold block_closed in Hb. rewrite Hitem, Hblock in Hb.
  eapply bool_decide_eq_true_1, Hb. by apply list_elem_of_In.
Qed.

(** On well-formed milestones none of which shadows [hasOwnProperty],
    [_init] completes. *)
Lemma _init_completes timing this events :
  captured timing this events -> well_formed events = true ->
  events !! "hasOwnProperty" = None ->
  exists this' rows,
    _init (Some timing) this = (this', Normal rows) /\
    forall i sec, _getSections !! i = Some sec ->
      sections this' !! i = Some (bounded events sec).
Proof.
  intros Hc Hwf Hown. pose proof Hc as Hc'%captured_spec.
  rewrite (_init_Some _ _ _ _ Hc').
  destruct (match_loop_complete [0; 1; 2]%nat events _getSections)
    as (d3 & s3 & Hm & Hb & Htag).
  { exact Hown. }
  { repeat (apply NoDup_cons; split; [rewrite ?elem_of_cons, elem_of_nil; lia|]).
    apply NoDup_nil_2. }
  { intros i Hi. by apply well_formed_sections. }
  rewrite Hm.
  pose proof Hm as (Ht & Hlen & _)%match_loop_inv.
  destruct (for_each (emit_step s3) _ _) as [st c] eqn:He.
  apply emit_loop_spec in He as (_ & Hcase). cbn [ls_data] in Hcase.
  assert (forall i sec, _getSections !! i = Some sec ->
            s3 !! i = Some (bounded events sec)) as Hb'.
  { intros i sec Hsec. apply Hb; [|done].
    apply lookup_lt_Some in Hsec. change (length _getSections) with 3%nat in Hsec.
    destruct i as [|[|[|i]]]; [solve_elem..|lia]. }
  destruct c as [[]|e]; [by eauto|]. exfalso.
  apply Exists_exists in Hcase as (evt & Hin & Hraise).
  unfold action_of in Hraise.
  rewrite (same_times_None events d3 _ Ht Hown) in Hraise.
  destruct (d3 !! evt) as [item|] eqn:Hitem; [|done].
  destruct (block_of evt) as [b|] eqn:Hblock; [|done].
  assert (is_Some (events !! evt)) as Hpres.
  { apply (same_times_is_Some events d3 evt Ht). by eexists. }
  destruct (well_formed_blocks events evt b Hwf Hin Hpres Hblock) as [e0 He0].
  destruct (proj2 (same_times_is_Some events d3 (b +:+ "End") Ht)
              (mk_is_Some _ _ He0)) as [e3 He3].
  rewrite He3 in Hraise.
  destruct (catalog_covered evt Hin) as (i & sec & Hi & Hsec & Hslice).
  destruct (Htag i sec evt Hi Hsec) as (e' & x & He' & Hx & Hxin).
  { unfold sectionEvents_of. apply list_elem_of_filter.
    split; [exact Hpres|exact Hslice]. }
  assert (e' = item) as -> by congruence.
  rewrite Hx in Hraise. simpl in Hraise.
  assert (is_Some (s3 !! x)) as [sd Hsd].
  { apply lookup_lt_is_Some. rewrite Hlen.
    change (length _getSections) with 3%nat.
    apply list_elem_of_lookup in Hxin as (j & Hj).
    repeat (destruct j as [|j]; [injection Hj as <-; lia|]). done. }
  by rewrite Hsd in Hraise.
Qed.

(** What a completed call went through. *)
Lemma _init_normal_inv timing this events this' rows :
  captured timing this events ->
  _init (Some timing) this = (this', Normal rows) ->
  exists d3,
    same_times events d3 /\
    Forall (fun evt => action_of d3 (sections this') evt <> Raise) eventsOrder /\
    rows = omap (fun evt => emitted (action_of d3 (sections this') evt)) eventsOrder.
Proof.
  intros Hc%captured_spec. rewrite (_init_Some _ _ _ _ Hc).
  destruct (for_each match_section _ _) as [[d3 s3] [[]|e]] eqn:Hm; [|done].
  apply match_loop_inv in Hm as (Ht & _).
  destruct (for_each (emit_step s3) _ _) as [st [[]|e]] eqn:He; [|done].
  apply emit_loop_spec in He as (_ & Hall & Hout).
  cbn [ls_data ls_output] in Hall, Hout. rewrite app_nil_l in Hout.
  intros [= <- <-]. by exists d3.
Qed.

(** A present [Start] whose [End] is in the catalog but not among the
    milestones makes [_init] raise. *)
Lemma _init_throws_unclosed timing this events evt b :
  captured timing this events ->
  evt ∈ eventsOrder -> is_Some (events !! evt) -> block_of evt = Some b ->
  events !! (b +:+ "End") = None ->
  (_init (Some timing) this).2 = Throw TypeError.
Proof.
  intros Hc%captured_spec Hin [item Hitem] Hblock Hend.
  rewrite (_init_Some _ _ _ _ Hc).
  destruct (for_each match_section _ _) as [[d3 s3] [[]|[]]] eqn:Hm; [|done].
  apply match_loop_inv in Hm as (Ht & _).
  destruct (for_each (emit_step s3) _ _) as [st [[]|[]]] eqn:He; [|done].
  apply emit_loop_spec in He as (_ & Hall & _). cbn [ls_data] in Hall.
  rewrite Forall_forall in Hall. destruct (Hall evt Hin).
  unfold action_of. destruct (d3 !! "hasOwnProperty"); [done|].
  destruct (proj2 (same_times_is_Some events d3 evt Ht) (mk_is_Some _ _ Hitem))
    as [i3 ->].
  by rewrite Hblock, (same_times_None events d3 _ Ht Hend).
Qed.

(** A section without a present milestone makes [_init] raise, leaving
    the section as [_getSections] built it. *)
Lemma _init_throws_empty timing this events i sec :
  captured timing this events ->
  _getSections !! i = Some sec -> sectionEvents_of events sec = [] ->
  events !! "undefined" = None ->
  (_init (Some timing) this).2 = Throw TypeError /\
  sections (_init (Some timing) this).1 !! i = Some sec.
Proof.
  intros Hc%captured_spec Hsec Hnil Hu.
  rewrite (_init_Some _ _ _ _ Hc).
  destruct (match_loop_throw [0; 1; 2]%nat events _getSections i sec)
    as (d' & s' & -> & Hi); [|done..].
  apply lookup_lt_Some in Hsec. change (length _getSections) with 3%nat in Hsec.
  destruct i as [|[|[|i]]]; [solve_elem..|lia].
Qed.

Lemma omap_indices {A B} (f : A -> option B) (l : list A) :
  exists idxs : list nat,
    StronglySorted lt idxs /\
    Forall2 (fun i y => exists x, l !! i = Some x /\ f x = Some y) idxs (omap f l).
Proof.
  induction l as [|x l (idxs & Hs & Hf)].
  - exists []. split; constructor.
  - assert (StronglySorted lt (S <$> idxs)) as Hs'.
    { eapply StronglySorted_fmap; [|exact Hs]. intros; lia. }
    assert (Forall2 (fun i y => exists x0, (x :: l) !! i = Some x0 /\ f x0 = Some y)
              (S <$> idxs) (omap f l)) as Hf'.
    { apply Forall2_fmap_l. eapply Forall2_impl; [exact Hf|]. by intros. }
    cbn [omap list_omap]. destruct (f x) as [y|] eqn:Hx.
    + exists (0%nat :: (S <$> idxs)). split.
      * constructor; [done|]. apply Forall_fmap, Forall_forall. intros; simpl; lia.
      * constructor; [|done]. by exists x.
    + by exists (S <$> idxs).
Qed.

(** In the catalog, the block of an entry is what precedes its [Start]
    suffix. *)
Lemma block_of_catalog evt b :
  evt ∈ eventsOrder -> block_of evt = Some b -> evt = b +:+ "Start".
Proof.
  unfold eventsOrder. intros Hin Hb.
  repeat (apply elem_of_cons in Hin as [->|Hin];
          [vm_compute in Hb; by (discriminate || injection Hb as <-)|]).
  by apply elem_of_nil in Hin.
Qed.

Lemma pair_of_block events evt p :
  pair_of events evt = Some p -> block_of evt = Some p.1.
Proof.
  unfold pair_of. destruct (events !! evt); [|done].
  destruct (block_of evt) as [b|]; [|done].
  destruct (events !! (b +:+ "End")); [|done]. by intros [= <-].
Qed.

Lemma emitted_block d secs evt o :
  emitted (action_of d secs evt) = Some o -> block_of evt = Some (opt_label o).
Proof.
  unfold action_of. destruct (d !! "hasOwnProperty"); [done|].
  destruct (d !! evt); [|done].
  destruct (block_of evt) as [b|]; [|done].
  destruct (d !! (b +:+ "End")); [|done].
  destruct (_ ≫= _); [|done]. by intros [= <-].
Qed.

(** The blocks of one label come from the catalog entries of that label. *)
Lemma filter_label_rows d secs (l : list string) (lbl : string) :
  filter (fun o => opt_label o = lbl)
         (omap (fun evt => emitted (action_of d secs evt)) l) =
  omap (fun evt => emitted (action_of d secs evt))
       (filter (fun evt => block_of evt = Some lbl) l).
Proof.
  induction l as [|x l IH]; [done|].
  cbn [omap list_omap]. rewrite filter_cons.
  destruct (emitted (action_of d secs x)) as [o|] eqn:Ho.
  - apply emitted_block in Ho as Hb. rewrite filter_cons.
    destruct (decide (block_of x = Some lbl)) as [Hx|Hx].
    + rewrite decide_True by congruence.
      cbn [omap list_omap]. by rewrite Ho, IH.
    + rewrite decide_False by congruence. done.
  - destruct (decide (block_of x = Some lbl)); [|done].
    cbn [omap list_omap]. by rewrite Ho.
Qed.

Lemma own_listed timing k :
  is_Some (own_props timing !! k) -> k ∈ _getPerfObjKeys timing.
Proof.
  intros Hk%elem_of_keys. unfold _getPerfObjKeys.
  destruct (keys (own_props timing)); [by apply elem_of_nil in Hk|done].
Qed.

(** Closes an equation between closed terms by evaluating both sides. *)
Ltac by_eval :=
  unfold captured;
  lazymatch goal with
  | |- _ = ?r => vm_cast_no_check (eq_refl r)
  end.

(** ** The claims on [_getData] *)

(** C5 (as amended). [totalTime] is the greatest of 0 and the offsets of
    the listed fields with a positive value.  These are the retained
    fields and, when the source lists one, the field named [__proto__],
    which line 153 counts although line 151 does not retain it: no such
    offset exceeds [totalTime], which is not negative and is either 0 or
    one of these offsets. *)
Theorem C5_totalTime_is_max_with_zero timing this events :
  captured timing this events ->
  (forall k e, events !! k = Some e ->
     time e <= totalTime (_getData (Some timing) this).1) /\
  (forall t, "__proto__" ∈ _getPerfObjKeys timing ->
     offset_of timing (origin_of timing) "__proto__" = Some t ->
     t <= totalTime (_getData (Some timing) this).1) /\
  0 <= totalTime (_getData (Some timing) this).1 /\
  (totalTime (_getData (Some timing) this).1 = 0 \/
   (exists k e, events !! k = Some e /\
      time e = totalTime (_getData (Some timing) this).1) \/
   ("__proto__" ∈ _getPerfObjKeys timing /\
    offset_of timing (origin_of timing) "__proto__" =
      Some (totalTime (_getData (Some timing) this).1))).
Proof.
  unfold captured.
  destruct (_getData_spec timing this) as (ev & total & -> & Hev & H0 & Hub & Hmax).
  simpl. intros [= ->]. split_and!; [| |done|].
  - intros k e. rewrite Hev. destruct (decide _) as [Hk|]; [|done].
    destruct (offset_of _ _ k) as [t|] eqn:Ht; [|done].
    destruct (decide (k = "__proto__")); [done|]. intros [= <-]. simpl. eauto.
  - intros t Hk Ht. eauto.
  - destruct Hmax as [->|(k & t & Hk & Ht & <-)]; [by left|right].
    destruct (decide (k = "__proto__")) as [->|Hne]; [by right|left].
    exists k, (mkEvent t None None None). split; [|done].
    by rewrite Hev, decide_True, Ht, decide_False.
Qed.

(** C5, on the example of the claim: with retained offsets 0, 120, 340 and
    50 the total is 340, reached by [loadEventEnd]. *)
Lemma C5_witness_four_offsets :
  captured four_offsets __Profiler
    (list_to_map [("navigationStart", fresh_event 0); ("responseStart", fresh_event 120);
                  ("loadEventEnd", fresh_event 340); ("fetchStart", fresh_event 50)]) /\
  totalTime (_getData (Some four_offsets) __Profiler).1 = 340 /\
  (totalTime (_getData (Some four_offsets) __Profiler).1 = 0 \/
   (exists k e,
      (list_to_map [("navigationStart", fresh_event 0); ("responseStart", fresh_event 120);
                    ("loadEventEnd", fresh_event 340); ("fetchStart", fresh_event 50)]
         : gmap string Event) !! k = Some e /\
      time e = totalTime (_getData (Some four_offsets) __Profiler).1) \/
   ("__proto__" ∈ _getPerfObjKeys four_offsets /\
    offset_of four_offsets (origin_of four_offsets) "__proto__" =
      Some (totalTime (_getData (Some four_offsets) __Profiler).1))).
Proof.
  split; [by_eval|]. split; [by_eval|].
  apply (C5_totalTime_is_max_with_zero four_offsets __Profiler).
  by_eval.
Defined.

(** C5 as stated fails: the only retained field of [shadowed] has offset
    -5 while [totalTime] is 0; a source without positive field retains
    nothing, so that no retained offset equals the total; and in
    [proto_field] the total 1000 is the offset of the field [__proto__],
    which is not retained, the retained offsets being 0 and 10. *)
Lemma C5_counterexample_total_not_max :
  (captured shadowed __Profiler {[ "foo" := fresh_event (-5) ]} /\
   totalTime (_getData (Some shadowed) __Profiler).1 = 0) /\
  (captured (own_timing [("navigationStart", 0)]) __Profiler ∅ /\
   totalTime (_getData (Some (own_timing [("navigationStart", 0)])) __Profiler).1 = 0) /\
  (captured proto_field __Profiler
     (list_to_map [("navigationStart", fresh_event 0); ("fetchStart", fresh_event 10)]) /\
   totalTime (_getData (Some proto_field) __Profiler).1 = 1000).
Proof.
  split_and!; by_eval.
Qed.

(** C6 (as amended). A listed field [X] other than [__proto__] worth
    [T0 + d], with [navigationStart = T0], [d > 0] and [T0 + d > 0], is
    captured at the offset [d]; a field that is missing or not positive is
    not captured, and no captured milestone is named [__proto__]. *)
Theorem C6_offsets_and_dropped_fields timing this events :
  captured timing this events ->
  (forall X T0 d,
     X ∈ _getPerfObjKeys timing -> X <> "__proto__" ->
     get timing "navigationStart" = Some T0 ->
     get timing X = Some (T0 + d) -> 0 < d -> 0 < T0 + d ->
     events !! X = Some (fresh_event d)) /\
  (forall k,
     get timing k = None \/ (exists v, get timing k = Some v /\ v <= 0) ->
     events !! k = None) /\
  events !! "__proto__" = None.
Proof.
  unfold captured.
  destruct (_getData_spec timing this) as (ev & total & -> & Hev & _).
  simpl. intros [= ->]. split_and!.
  - intros X T0 d HX Hne HT0 HXv Hd Hpos. rewrite Hev, decide_True by done.
    unfold offset_of. rewrite HXv, (origin_of_get _ _ HT0).
    destruct (Z.ltb_spec 0 (T0 + d)); [|lia]. rewrite decide_False by done.
    unfold fresh_event. do 2 f_equal. lia.
  - intros k Hk. rewrite Hev. destruct (decide _); [|done].
    unfold offset_of. destruct Hk as [->|(v & -> & Hv)]; [done|].
    by destruct (Z.ltb_spec 0 v); [lia|].
  - rewrite Hev. destruct (decide _); [|done].
    destruct (offset_of _ _ _); [|done]. by rewrite decide_True.
Qed.

(** C6, on [four_offsets]: [fetchStart = 1000 + 50] is captured at the
    offset 50, and [redirectStart = 0] is not captured. *)
Lemma C6_witness_four_offsets :
  captured four_offsets __Profiler
    (list_to_map [("navigationStart", fresh_event 0); ("responseStart", fresh_event 120);
                  ("loadEventEnd", fresh_event 340); ("fetchStart", fresh_event 50)]) /\
  (list_to_map [("navigationStart", fresh_event 0); ("responseStart", fresh_event 120);
                ("loadEventEnd", fresh_event 340); ("fetchStart", fresh_event 50)]
     : gmap string Event) !! "fetchStart" = Some (fresh_event 50) /\
  (list_to_map [("navigationStart", fresh_event 0); ("responseStart", fresh_event 120);
                ("loadEventEnd", fresh_event 340); ("fetchStart", fresh_event 50)]
     : gmap string Event) !! "redirectStart" = None.
Proof.
  assert (captured four_offsets __Profiler
    (list_to_map [("navigationStart", fresh_event 0); ("responseStart", fresh_event 120);
                  ("loadEventEnd", fresh_event 340); ("fetchStart", fresh_event 50)]))
    as Hc by (by_eval).
  split; [exact Hc|].
  destruct (C6_offsets_and_dropped_fields four_offsets __Profiler _ Hc)
    as (Hkeep & Hdrop & _).
  split.
  - apply (Hkeep "fetchStart" 1000 50);
      [|discriminate|by_eval|by_eval|lia|lia].
    apply own_listed. exists 1050. by_eval.
  - apply Hdrop. right. exists 0. split; [by_eval|lia].
Defined.

(** C6 as stated fails: with [navigationStart = -100] the field
    [fetchStart = -100 + 5] is not captured; in [shadowed] the inherited
    [fetchStart = 10 + 5] is not listed, hence not captured either; and in
    [proto_field] the listed field [__proto__ = 1000 + 1000] is not
    captured. *)
Lemma C6_counterexample_field_not_captured :
  (get negative_origin "navigationStart" = Some (-100) /\
   get negative_origin "fetchStart" = Some (-100 + 5) /\
   captured negative_origin __Profiler ∅) /\
  (get shadowed "navigationStart" = Some 10 /\
   get shadowed "fetchStart" = Some (10 + 5) /\
   captured shadowed __Profiler {[ "foo" := fresh_event (-5) ]}) /\
  (get proto_field "navigationStart" = Some 1000 /\
   get proto_field "__proto__" = Some (1000 + 1000) /\
   "__proto__" ∈ _getPerfObjKeys proto_field /\
   captured proto_field __Profiler
     (list_to_map [("navigationStart", fresh_event 0); ("fetchStart", fresh_event 10)])).
Proof.
  split_and!; try by_eval.
  apply own_listed. exists 2000. by_eval.
Qed.

(** C9 (as amended). A captured milestone is a field with a positive value
    [v], at the offset [v - origin]; that offset is non-negative exactly
    when [v] is not below the origin. *)
Theorem C9_offset_sign timing this events k e :
  captured timing this events -> events !! k = Some e ->
  exists v, get timing k = Some v /\ 0 < v /\
            time e = v - origin_of timing /\
            (0 <= time e <-> origin_of timing <= v).
Proof.
  unfold captured.
  destruct (_getData_spec timing this) as (ev & total & -> & Hev & _).
  simpl. intros [= ->]. rewrite Hev. destruct (decide _); [|done].
  unfold offset_of. destruct (get timing k) as [v|]; [|done].
  destruct (Z.ltb_spec 0 v); [|done].
  destruct (decide (k = "__proto__")); [done|]. intros [= <-]. simpl.
  exists v. split_and!; [done|done|done|lia].
Qed.

(** C9, on [four_offsets]: [fetchStart = 1050] is not below the origin 1000
    and its offset 50 is not negative. *)
Lemma C9_witness_four_offsets :
  exists v, get four_offsets "fetchStart" = Some v /\ 0 < v /\
            time (fresh_event 50) = v - origin_of four_offsets /\
            (0 <= time (fresh_event 50) <-> origin_of four_offsets <= v).
Proof.
  apply (C9_offset_sign four_offsets __Profiler
    (list_to_map [("navigationStart", fresh_event 0); ("responseStart", fresh_event 120);
                  ("loadEventEnd", fresh_event 340); ("fetchStart", fresh_event 50)])
    "fetchStart" (fresh_event 50)); by_eval.
Defined.

(** C9 as stated fails: [fetchStart = 5] under [navigationStart = 10] is
    captured at the offset -5. *)
Lemma C9_counterexample_negative_offset :
  captured early_field __Profiler
    (list_to_map [("navigationStart", fresh_event 0); ("fetchStart", fresh_event (-5))]) /\
  time (fresh_event (-5)) < 0.
Proof.
  split; [by_eval|done].
Qed.

(** [_getSections] builds every section with both bounds at 0. *)
Lemma _getSections_unbounded i sec :
  _getSections !! i = Some sec -> startTime sec = 0 /\ endTime sec = 0.
Proof.
  intros H%list_elem_of_lookup_2. unfold _getSections in H.
  rewrite !elem_of_cons, elem_of_nil in H.
  by destruct H as [->|[->|[->|[]]]].
Qed.

(** ** The claims on the failure paths *)

(** C1 (the code departs from the claim). Whenever a catalog [Start] is
    captured and its [End], listed in the catalog, is not, [_init] does not
    skip the block silently: line 197 dereferences [undefined] and the
    [TypeError] escapes, so that nothing at all is emitted. *)
Theorem C1_unpaired_start_raises timing this events evt b :
  captured timing this events ->
  evt ∈ eventsOrder -> block_of evt = Some b ->
  is_Some (events !! evt) -> events !! (b +:+ "End") = None ->
  (_init (Some timing) this).2 = Throw TypeError /\
  rows_of (_init (Some timing) this) = [].
Proof.
  intros Hc Hin Hb Hevt Hend.
  pose proof (_init_throws_unclosed timing this events evt b Hc Hin Hevt Hb Hend) as H.
  split; [done|]. unfold rows_of. by rewrite H.
Qed.

(** C1, on [unpaired_start]: [domainLookupStart] at the offset 10 without
    [domainLookupEnd]. *)
Lemma C1_witness_unpaired_start :
  (_init (Some unpaired_start) __Profiler).2 = Throw TypeError /\
  rows_of (_init (Some unpaired_start) __Profiler) = [].
Proof.
  apply (C1_unpaired_start_raises unpaired_start __Profiler
    (list_to_map [("navigationStart", fresh_event 0); ("domainLookupStart", fresh_event 10);
                  ("requestStart", fresh_event 100); ("responseEnd", fresh_event 250);
                  ("domLoading", fresh_event 300)])
    "domainLookupStart" "domainLookup").
  - by_eval.
  - solve_elem.
  - by_eval.
  - exists (fresh_event 10). by_eval.
  - by_eval.
Defined.

(** C2 (the code departs from the claim). Whenever a section has no
    captured milestone, its bounds do stay at 0, but line 111 dereferences
    [undefined] and the [TypeError] escapes from [_init]. *)
Theorem C2_empty_section_raises timing this events i sec :
  captured timing this events ->
  _getSections !! i = Some sec -> sectionEvents_of events sec = [] ->
  events !! "undefined" = None ->
  (_init (Some timing) this).2 = Throw TypeError /\
  exists sec', sections (_init (Some timing) this).1 !! i = Some sec' /\
               startTime sec' = 0 /\ endTime sec' = 0.
Proof.
  intros Hc Hsec Hnil Hu.
  destruct (_init_throws_empty timing this events i sec Hc Hsec Hnil Hu) as [Ht Hs].
  split; [done|]. exists sec. split; [done|].
  by eapply _getSections_unbounded.
Qed.

(** C2, on [no_server]: the server section has no captured milestone. *)
Lemma C2_witness_no_server :
  (_init (Some no_server) __Profiler).2 = Throw TypeError /\
  exists sec', sections (_init (Some no_server) __Profiler).1 !! 1%nat = Some sec' /\
               startTime sec' = 0 /\ endTime sec' = 0.
Proof.
  apply (C2_empty_section_raises no_server __Profiler
    (list_to_map [("navigationStart", fresh_event 0); ("domainLookupStart", fresh_event 10);
                  ("domainLookupEnd", fresh_event 40); ("domLoading", fresh_event 300)])
    1%nat server); by_eval.
Defined.

(** C3 (the code departs from the claim). Without [window.performance]
    [_getData] returns [undefined], but [_init] then calls
    [hasOwnProperty] on it at line 181: a [TypeError] escapes and
    [_createNotSupportedInfo] is never reached. *)
Theorem C3_unsupported_raises this :
  (_getData None this).2 = None /\
  (_init None this).2 = Throw TypeError /\
  timingData (_init None this).1 = None.
Proof. by rewrite _init_unsupported. Qed.

(** C4 (the code departs from the claim). With [domainLookupStart] and
    [domainLookupEnd] captured at the offsets 10 and 40 and nothing in the
    server section, [_init] raises before any block is emitted. *)
Theorem C4_lookup_pair_raises :
  captured lookup_only __Profiler
    (list_to_map [("navigationStart", fresh_event 0); ("domainLookupStart", fresh_event 10);
                  ("domainLookupEnd", fresh_event 40)]) /\
  (_init (Some lookup_only) __Profiler).2 = Throw TypeError /\
  rows_of (_init (Some lookup_only) __Profiler) = [].
Proof. split_and!; by_eval. Qed.

(** C7 (the code departs from the claim). With only [requestStart] and
    [responseEnd] captured, at the offsets 100 and 250, the server section
    has two present milestones, yet the loop raises on the empty network
    section before it, and the bounds of the server section stay at 0. *)
Theorem C7_server_bounds_not_set :
  captured server_only __Profiler
    (list_to_map [("requestStart", fresh_event 100); ("responseEnd", fresh_event 250)]) /\
  sectionEvents_of
    (list_to_map [("requestStart", fresh_event 100); ("responseEnd", fresh_event 250)])
    server = ["requestStart"; "responseEnd"] /\
  (_init (Some server_only) __Profiler).2 = Throw TypeError /\
  sections (_init (Some server_only) __Profiler).1 !! 1%nat =
    Some server.
Proof. split_and!; by_eval. Qed.

(** C10 (the code departs from the claim). With [redirectStart] and
    [redirectEnd] captured and no milestone in the server section, [_init]
    raises and emits no block labelled [redirect]. *)
Theorem C10_redirect_pair_raises :
  captured redirect_only __Profiler
    (list_to_map [("navigationStart", fresh_event 0); ("redirectStart", fresh_event 5);
                  ("redirectEnd", fresh_event 20)]) /\
  (_init (Some redirect_only) __Profiler).2 = Throw TypeError /\
  rows_of (_init (Some redirect_only) __Profiler) = [].
Proof. split_and!; by_eval. Qed.

(** ** The claims on the emitted blocks *)

Lemma captured_functional timing this events events' :
  captured timing this events -> captured timing this events' -> events' = events.
Proof. unfold captured. congruence. Qed.

Lemma captured_exists timing this : exists events, captured timing this events.
Proof.
  unfold captured. destruct (_getData_spec timing this) as (ev & total & -> & _).
  by exists ev.
Qed.

(** C8. The blocks [_init] emits follow the catalog: they are the pairs of
    catalog entries taken at strictly increasing catalog indices, each
    block labelled by what precedes [Start] in its entry.  The order is not
    that of the offsets: in [connect_before_lookup] the block that starts
    at 50 comes before the one that starts at 20. *)
Theorem C8_rows_in_catalog_order :
  (forall performance this,
     exists idxs : list nat,
       StronglySorted lt idxs /\
       Forall2 (fun i o =>
           exists evt, eventsOrder !! i = Some evt /\
             evt = opt_label o +:+ "Start" /\
             forall timing events,
               performance = Some timing -> captured timing this events ->
               pair_of events evt = Some (summary o))
         idxs (rows_of (_init performance this))) /\
  summary <$> rows_of (_init (Some connect_before_lookup) __Profiler) =
    [("domainLookup", (50, 60)); ("connect", (20, 30))].
Proof.
  split; [|by_eval].
  intros [timing|] this.
  2:{ exists []. split; [constructor|]. rewrite _init_unsupported. constructor. }
  destruct (_init (Some timing) this) as [this' [rows|e]] eqn:Hrun.
  2:{ exists []. split; constructor. }
  change (rows_of (this', Normal rows)) with rows.
  destruct (captured_exists timing this) as [events Hc].
  pose proof (_init_rows _ _ _ _ _ Hc Hrun) as Hrows.
  destruct (omap_indices (pair_of events) eventsOrder) as (idxs & Hsorted & Hidx).
  exists idxs. split; [done|].
  rewrite <- Hrows in Hidx. apply Forall2_fmap_r in Hidx.
  eapply Forall2_impl; [exact Hidx|].
  intros i o (evt & Hi & Hpair). simpl in Hpair. exists evt. split; [done|].
  split.
  - apply block_of_catalog; [by eapply list_elem_of_lookup_2|].
    by apply pair_of_block in Hpair.
  - intros timing' events' [= <-] Hc'.
    by rewrite (captured_functional _ _ _ _ Hc Hc').
Qed.

(** ** Completed calls *)

(** In a completed call every catalog entry of the block [lbl] contributes
    the same block, bounded by the offsets of its [Start] and [End]. *)
Lemma rows_with_label timing this events this' rows evt lbl item :
  captured timing this events ->
  _init (Some timing) this = (this', Normal rows) ->
  evt ∈ eventsOrder -> block_of evt = Some lbl -> events !! evt = Some item ->
  exists o e,
    events !! (lbl +:+ "End") = Some e /\
    summary o = (lbl, (time item, time e)) /\
    filter (fun o => opt_label o = lbl) rows =
      (fun _ => o) <$> filter (fun x => block_of x = Some lbl) eventsOrder.
Proof.
  intros Hc Hrun Hin Hblock Hitem.
  destruct (_init_normal_inv _ _ _ _ _ Hc Hrun) as (d3 & Ht & Hall & ->).
  rewrite Forall_forall in Hall.
  pose proof (summary_of_action events d3 (sections this') evt Ht (Hall evt Hin))
    as Hsum.
  unfold pair_of in Hsum. rewrite Hitem, Hblock in Hsum.
  destruct (emitted (action_of d3 (sections this') evt)) as [o|] eqn:Ho.
  2:{ exfalso. apply (Hall evt Hin). unfold action_of in *.
      destruct (d3 !! "hasOwnProperty"); [done|].
      destruct (d3 !! evt) as [i3|] eqn:Hi3.
      2:{ apply (same_times_None d3 events) in Hi3; [congruence|].
          intros k. by rewrite Ht. }
      rewrite Hblock in *.
      destruct (d3 !! (lbl +:+ "End")); [|done].
      by destruct (_ ≫= _). }
  destruct (events !! (lbl +:+ "End")) as [e|]; [|done].
  apply (inj Some) in Hsum. exists o, e. split; [done|]. split; [done|].
  rewrite filter_label_rows.
  assert (forall x, x ∈ filter (fun x => block_of x = Some lbl) eventsOrder -> x = evt)
    as Hsame.
  { intros x [Hx Hxin]%list_elem_of_filter.
    by rewrite (block_of_catalog x lbl), (block_of_catalog evt lbl). }
  induction (filter _ eventsOrder) as [|x l IH]; [done|].
  cbn [omap list_omap]. rewrite (Hsame x) by apply list_elem_of_here.
  rewrite Ho, fmap_cons. f_equal. apply IH.
  intros y Hy. by apply Hsame, list_elem_of_further.
Qed.

(** On well-formed milestones (every section has a present one, every
    present [Start] of a block has its [End]) none of which is named
    [hasOwnProperty], [_init] returns, and its blocks are the pairs of the
    catalog entries, in catalog order. *)
Theorem well_formed_completes timing this events :
  captured timing this events -> well_formed events = true ->
  events !! "hasOwnProperty" = None ->
  exists this' rows,
    _init (Some timing) this = (this', Normal rows) /\
    summary <$> rows = omap (pair_of events) eventsOrder.
Proof.
  intros Hc Hwf Hown.
  destruct (_init_completes timing this events Hc Hwf Hown)
    as (this' & rows & Hrun & _).
  exists this', rows. split; [done|]. by eapply _init_rows.
Qed.

(** [full_load] is well-formed. *)
Lemma well_formed_completes_witness :
  exists this' rows,
    _init (Some full_load) __Profiler = (this', Normal rows) /\
    summary <$> rows =
      omap (pair_of (default ∅ (_getData (Some full_load) __Profiler).2)) eventsOrder.
Proof.
  apply (well_formed_completes full_load __Profiler);
    [reflexivity|by_eval|by_eval].
Defined.

Lemma forallb_false {A} (f : A -> bool) (l : list A) :
  forallb f l = false -> exists x, x ∈ l /\ f x = false.
Proof.
  induction l as [|x l IH]; simpl; [done|].
  destruct (f x) eqn:Hx; simpl.
  - intros (y & Hy & Hfy)%IH. exists y. split; [by apply list_elem_of_further|done].
  - intros _. exists x. split; [apply list_elem_of_here|done].
Qed.

(** Otherwise, unless a milestone is called [undefined], [_init] raises. *)
Theorem ill_formed_raises timing this events :
  captured timing this events -> well_formed events = false ->
  events !! "undefined" = None ->
  (_init (Some timing) this).2 = Throw TypeError.
Proof.
  intros Hc Hwf Hu. unfold well_formed in Hwf.
  apply andb_false_iff in Hwf as [Hs|Hb].
  - apply forallb_false in Hs as (sec & Hin & Hsec).
    apply list_elem_of_lookup in Hin as (i & Hi).
    apply (_init_throws_empty timing this events i sec); [done..| |done].
    unfold section_present in Hsec. by destruct (sectionEvents_of events sec).
  - apply forallb_false in Hb as (evt & Hin & Hevt).
    unfold block_closed in Hevt.
    destruct (events !! evt) as [item|] eqn:Hitem; [|done].
    destruct (block_of evt) as [b|] eqn:Hblock; [|done].
    apply (_init_throws_unclosed timing this events evt b); [done..| |done|].
    + by rewrite Hitem.
    + apply eq_None_not_Some. by apply bool_decide_eq_false in Hevt.
Qed.

(** [unpaired_start] is not. *)
Lemma ill_formed_raises_witness :
  (_init (Some unpaired_start) __Profiler).2 = Throw TypeError.
Proof.
  apply (ill_formed_raises unpaired_start __Profiler
           (default ∅ (_getData (Some unpaired_start) __Profiler).2));
    [reflexivity|by_eval|by_eval].
Defined.

(** The catalog entries of a block: [redirectStart] is listed twice,
    every other [Start] once. *)
Lemma blocks_of_catalog evt lbl :
  evt ∈ eventsOrder -> block_of evt = Some lbl ->
  filter (fun x => block_of x = Some lbl) eventsOrder =
    if decide (lbl = "redirect") then [evt; evt] else [evt].
Proof.
  unfold eventsOrder at 1. intros Hin Hb.
  repeat (apply elem_of_cons in Hin as [->|Hin];
          [vm_compute in Hb;
           first [discriminate Hb
                 | injection Hb as <-;
                   first [rewrite decide_True by reflexivity
                         | rewrite decide_False by discriminate];
                   by_eval]|]).
  by apply elem_of_nil in Hin.
Qed.

(** On well-formed milestones none of which is named [hasOwnProperty],
    [_init] returns and a block whose [Start] and [End] are both present is
    emitted once per catalog entry of its [Start]: twice for [redirect],
    once for every other block; the copies are identical. *)
Theorem redirect_twice_others_once timing this events :
  captured timing this events -> well_formed events = true ->
  events !! "hasOwnProperty" = None ->
  exists this' rows,
    _init (Some timing) this = (this', Normal rows) /\
    forall evt lbl item,
      evt ∈ eventsOrder -> block_of evt = Some lbl -> events !! evt = Some item ->
      exists o e,
        events !! (lbl +:+ "End") = Some e /\
        summary o = (lbl, (time item, time e)) /\
        filter (fun o => opt_label o = lbl) rows =
          if decide (lbl = "redirect") then [o; o] else [o].
Proof.
  intros Hc Hwf Hown.
  destruct (_init_completes timing this events Hc Hwf Hown)
    as (this' & rows & Hrun & _).
  exists this', rows. split; [done|]. intros evt lbl item Hin Hb Hitem.
  destruct (rows_with_label _ _ _ _ _ _ _ _ Hc Hrun Hin Hb Hitem)
    as (o & e & He & Hsum & Hrows).
  exists o, e. split; [done|]. split; [done|].
  rewrite Hrows, (blocks_of_catalog evt lbl Hin Hb). by destruct (decide _).
Qed.

(** On [full_load], which holds a redirect. *)
Lemma redirect_twice_others_once_witness :
  exists this' rows,
    _init (Some full_load) __Profiler = (this', Normal rows) /\
    forall evt lbl item,
      evt ∈ eventsOrder -> block_of evt = Some lbl ->
      default ∅ (_getData (Some full_load) __Profiler).2 !! evt = Some item ->
      exists o e,
        default ∅ (_getData (Some full_load) __Profiler).2 !! (lbl +:+ "End") = Some e /\
        summary o = (lbl, (time item, time e)) /\
        filter (fun o => opt_label o = lbl) rows =
          if decide (lbl = "redirect") then [o; o] else [o].
Proof.
  apply (redirect_twice_others_once full_load __Profiler);
    [reflexivity|by_eval|by_eval].
Defined.

(** On well-formed milestones, none of which is named [hasOwnProperty],
    holding [domainLookupStart] and [domainLookupEnd], [_init] returns and
    exactly one block is labelled [domainLookup]; it spans the offsets of
    the two, and no block is labelled [domainLookupEnd]. *)
Theorem lookup_pair_emitted_once timing this events s e :
  captured timing this events -> well_formed events = true ->
  events !! "hasOwnProperty" = None ->
  events !! "domainLookupStart" = Some s -> events !! "domainLookupEnd" = Some e ->
  exists this' rows o,
    _init (Some timing) this = (this', Normal rows) /\
    filter (fun o => opt_label o = "domainLookup") rows = [o] /\
    eventTimeBounds o = (time s, time e) /\
    filter (fun o => opt_label o = "domainLookupEnd") rows = [].
Proof.
  intros Hc Hwf Hown Hs He.
  destruct (_init_completes timing this events Hc Hwf Hown)
    as (this' & rows & Hrun & _).
  assert ("domainLookupStart" ∈ eventsOrder) as Hin by solve_elem.
  assert (block_of "domainLookupStart" = Some "domainLookup") as Hb by by_eval.
  destruct (rows_with_label _ _ _ _ _ _ _ _ Hc Hrun Hin Hb Hs)
    as (o & e' & He' & Hsum & Hrows).
  change ("domainLookup" +:+ "End") with "domainLookupEnd" in He'.
  assert (e' = e) as -> by congruence.
  exists this', rows, o. split; [done|]. split; [|split].
  - by rewrite Hrows, (blocks_of_catalog _ _ Hin Hb).
  - unfold summary in Hsum. congruence.
  - destruct (_init_normal_inv _ _ _ _ _ Hc Hrun) as (d3 & _ & _ & ->).
    rewrite filter_label_rows.
    assert (filter (fun x => block_of x = Some "domainLookupEnd") eventsOrder = [])
      as -> by by_eval.
    done.
Qed.

(** On [full_load]: the block [domainLookup] spans the offsets 25 and 40. *)
Lemma lookup_pair_emitted_once_witness :
  exists this' rows o,
    _init (Some full_load) __Profiler = (this', Normal rows) /\
    filter (fun o => opt_label o = "domainLookup") rows = [o] /\
    eventTimeBounds o = (time (fresh_event 25), time (fresh_event 40)) /\
    filter (fun o => opt_label o = "domainLookupEnd") rows = [].
Proof.
  apply (lookup_pair_emitted_once full_load __Profiler
           (default ∅ (_getData (Some full_load) __Profiler).2));
    [reflexivity|by_eval..].
Defined.

(** ** Bounds of the sections *)

Lemma match_loop_prefix pre post d s i sec d' s' c :
  d !! "hasOwnProperty" = None ->
  NoDup pre -> i ∈ pre -> i ∉ post ->
  (forall j, j ∈ pre -> exists sec, s !! j = Some sec /\ sectionEvents_of d sec <> []) ->
  s !! i = Some sec ->
  for_each match_section (d, s) (pre ++ post) = ((d', s'), c) ->
  s' !! i = Some (bounded d sec).
Proof.
  intros Hown Hnd Hi Hpost Hall Hsec. rewrite for_each_app.
  destruct (match_loop_complete pre d s Hown Hnd Hall) as (d1 & s1 & -> & Hb & _).
  intros (_ & _ & _ & Hf & _)%match_loop_inv.
  rewrite Hf by done. by apply Hb.
Qed.

Lemma _init_sections timing this events :
  captured timing this events ->
  sections (_init (Some timing) this).1 =
    (for_each match_section (events, _getSections) [0; 1; 2]%nat).1.2.
Proof.
  intros Hc%captured_spec. rewrite (_init_Some _ _ _ _ Hc).
  destruct (for_each match_section _ _) as [[d3 s3] [[]|e]]; [|done].
  by destruct (for_each (emit_step s3) _ _) as [st [[]|e]].
Qed.

(** When no milestone is named [hasOwnProperty], a section that has a
    present milestone, as have the sections before it, ends up bounded by
    the least and the greatest offset of its present milestones, whether or
    not [_init] completes afterwards. *)
Theorem section_bounds_min_max timing this events i sec :
  captured timing this events ->
  events !! "hasOwnProperty" = None ->
  _getSections !! i = Some sec ->
  (forall j sec_j, (j <= i)%nat -> _getSections !! j = Some sec_j ->
     sectionEvents_of events sec_j <> []) ->
  exists sec',
    sections (_init (Some timing) this).1 !! i = Some sec' /\
    (exists k, k ∈ sectionEvents_of events sec /\ time_of events k = startTime sec') /\
    (forall k, k ∈ sectionEvents_of events sec -> startTime sec' <= time_of events k) /\
    (exists k, k ∈ sectionEvents_of events sec /\ time_of events k = endTime sec') /\
    (forall k, k ∈ sectionEvents_of events sec -> time_of events k <= endTime sec').
Proof.
  intros Hc Hown Hsec Hne. exists (bounded events sec).
  split; [|by apply bounded_min_max, (Hne i)].
  rewrite (_init_sections _ _ _ Hc).
  destruct (for_each match_section _ _) as [[d' s'] c] eqn:Hrun. simpl.
  assert (i < 3)%nat as Hi3.
  { apply lookup_lt_Some in Hsec. by change (length _getSections) with 3%nat in Hsec. }
  assert (forall pre : list nat, (forall j, j ∈ pre -> (j <= i)%nat) ->
            forall j, j ∈ pre ->
              exists sec, _getSections !! j = Some sec /\ sectionEvents_of events sec <> [])
    as Hpre.
  { intros pre Hle j Hj. assert (j < 3)%nat as Hj3 by (specialize (Hle j Hj); lia).
    destruct (lookup_lt_is_Some_2 _getSections j) as [sec_j Hsec_j]; [done|].
    exists sec_j. split; [done|]. by apply (Hne j sec_j); [apply Hle|]. }
  destruct i as [|[|[|i]]]; [| | |lia].
  - apply (match_loop_prefix [0%nat] [1; 2]%nat events _getSections 0 sec d' s' c);
      [exact Hown|apply NoDup_singleton|solve_elem| | |done|done].
    + rewrite !elem_of_cons, elem_of_nil. lia.
    + apply Hpre. intros j. rewrite elem_of_cons, elem_of_nil. lia.
  - apply (match_loop_prefix [0; 1]%nat [2%nat] events _getSections 1 sec d' s' c);
      [exact Hown| |solve_elem| | |done|done].
    + repeat (apply NoDup_cons; split; [rewrite ?elem_of_cons, elem_of_nil; lia|]).
      apply NoDup_nil_2.
    + rewrite !elem_of_cons, elem_of_nil. lia.
    + apply Hpre. intros j. rewrite !elem_of_cons, elem_of_nil. lia.
  - apply (match_loop_prefix [0; 1; 2]%nat [] events _getSections 2 sec d' s' c);
      [exact Hown| |solve_elem|apply not_elem_of_nil| |done|done].
    + repeat (apply NoDup_cons; split; [rewrite ?elem_of_cons, elem_of_nil; lia|]).
      apply NoDup_nil_2.
    + apply Hpre. intros j. rewrite !elem_of_cons, elem_of_nil. lia.
Qed.

(** With [requestStart] at 100, [responseEnd] at 250 and a present
    milestone in the network section, the server section is bounded by 100
    and 250 although [_init] raises on the empty browser section. *)
Lemma section_bounds_min_max_witness :
  (_init (Some request_response) __Profiler).2 = Throw TypeError /\
  exists sec',
    sections (_init (Some request_response) __Profiler).1 !! 1%nat = Some sec' /\
    (exists k, k ∈ sectionEvents_of request_response_events server /\
       time_of request_response_events k = startTime sec') /\
    (forall k, k ∈ sectionEvents_of request_response_events server ->
       startTime sec' <= time_of request_response_events k) /\
    (exists k, k ∈ sectionEvents_of request_response_events server /\
       time_of request_response_events k = endTime sec') /\
    (forall k, k ∈ sectionEvents_of request_response_events server ->
       time_of request_response_events k <= endTime sec').
Proof.
  split; [by_eval|].
  apply (section_bounds_min_max request_response __Profiler
           request_response_events 1%nat server).
  - by_eval.
  - by_eval.
  - by_eval.
  - intros j sec_j Hj Hsec.
    assert (Forall (fun sec => sectionEvents_of request_response_events sec <> [])
                   (take 2 _getSections)) as Hall.
    { apply (bool_decide_unpack _). vm_cast_no_check I. }
    rewrite Forall_forall in Hall. apply Hall.
    apply elem_of_take. exists j. split; [exact Hsec|lia].
Defined.

(** ** The rendered lines *)

(** The lines [_init] hands to [innerHTML] for [connect_before_lookup]:
    one per block, in catalog order. *)
Lemma output_html_connect_before_lookup :
  output_html (rows_of (_init (Some connect_before_lookup) __Profiler)) =
  "domainLookup 50-60 ms<br>" +:+ newline +:+ "connect 20-30 ms<br>" +:+ newline.
Proof. by_eval. Qed.

(** ** The fields [_getData] reads *)

(** The order in which the fields are listed changes neither the events
    nor the total: on [four_offsets], for two of its fields. *)
Lemma getData_loop_perm_witness :
  getData_loop four_offsets 1000 ["fetchStart"; "loadEventEnd"] =
  getData_loop four_offsets 1000 ["loadEventEnd"; "fetchStart"].
Proof.
  apply (getData_loop_perm four_offsets 1000). apply Permutation_swap.
Defined.



(** ** What [_init] keeps and what it forgets *)

Lemma same_shape_times d d' : same_shape d d' -> same_times d d'.
Proof.
  intros H k. specialize (H k).
  destruct (d' !! k), (d !! k); simpl in *; congruence.
Qed.

(** With a timing source, [_init] recomputes the whole instance: what it
    held before has no effect on the outcome nor on the state it is left
    in.  Without one, the [totalTime] of an earlier call stays. *)
Theorem _init_forgets_instance timing this this' :
  _init (Some timing) this = _init (Some timing) this' /\
  totalTime (_init None this).1 = totalTime this.
Proof.
  split; [|done].
  unfold _init, _getData.
  by destruct (getData_loop _ _ _) as [events total].
Qed.

(** Whatever its outcome, [_init] leaves in [timingData] the captured
    milestones, all of them and only them, at their captured offsets, and
    in [totalTime] the total of [_getData]. *)
Theorem _init_keeps_milestones timing this events :
  captured timing this events ->
  exists data',
    timingData (_init (Some timing) this).1 = Some data' /\
    (forall k, time <$> (data' !! k) = time <$> (events !! k)) /\
    totalTime (_init (Some timing) this).1 =
      totalTime (_getData (Some timing) this).1.
Proof.
  intros Hc%captured_spec. rewrite (_init_Some _ _ _ _ Hc).
  destruct (for_each match_section _ _) as [[d3 s3] c] eqn:Hm.
  apply match_loop_inv in Hm as (Ht & _).
  destruct c as [[]|e]; [|by exists d3].
  destruct (for_each (emit_step s3) _ _) as [st c'] eqn:He.
  apply emit_loop_spec in He as (Hs%same_shape_times & _).
  cbn [ls_data] in Hs.
  exists (ls_data st). split; [by destruct c' as [[]|?]|].
  split; [|by destruct c' as [[]|?]].
  intros k. by rewrite Hs, Ht.
Qed.

(** On [unpaired_start], where [_init] raises. *)
Lemma _init_keeps_milestones_witness :
  exists data',
    timingData (_init (Some unpaired_start) __Profiler).1 = Some data' /\
    (forall k, time <$> (data' !! k) =
       time <$> (default ∅ (_getData (Some unpaired_start) __Profiler).2 !! k)) /\
    totalTime (_init (Some unpaired_start) __Profiler).1 =
      totalTime (_getData (Some unpaired_start) __Profiler).1.
Proof.
  apply (_init_keeps_milestones unpaired_start __Profiler). reflexivity.
Defined.

(** ** Completed runs of the loop over the sections *)

Lemma bounded_undefined data sec u :
  sectionEvents_of data sec = [] -> data !! "undefined" = Some u ->
  bounded data sec = set_endTime (time u) (set_startTime (time u) sec).
Proof.
  intros Hnil Hu. unfold bounded. rewrite Hnil. simpl.
  unfold time_of. by rewrite Hu.
Qed.

(** What a completed iteration did. *)
Lemma match_section_normal d s x d1 s1 :
  match_section (d, s) x = ((d1, s1), Normal tt) ->
  exists sec,
    s !! x = Some sec /\
    s1 = alter (fun _ => bounded d sec) x s /\
    (forall k, d1 !! k =
       if decide (k ∈ sectionEvents_of d sec)
       then set_sectionIndex x <$> d !! k else d !! k) /\
    (sectionEvents_of d sec <> [] \/ is_Some (d !! "undefined")).
Proof.
  unfold match_section. intros H.
  destruct (s !! x) as [sec|] eqn:Hsec; [|done]. exists sec. split; [done|].
  cbv zeta in H. destruct (filter_with _ _) as [r|e] eqn:Hf; [|done].
  apply filter_with_Normal in Hf. fold (sectionEvents_of d sec) in Hf. subst r.
  set (sorted := sort_by (time_of d) (sectionEvents_of d sec)) in *.
  destruct (d !! key_of (head sorted)) as [fe|] eqn:Hfe; [|done].
  destruct (d !! key_of (last sorted)) as [le|] eqn:Hle; [|done].
  injection H as <- <-. split_and!.
  - rewrite list_alter_alter_eq. apply list_alter_ext; [|done].
    intros sec' Hsec'. assert (sec' = sec) as -> by congruence.
    unfold bounded. fold sorted. unfold time_of. by rewrite Hfe, Hle.
  - intros k. rewrite tag_all_lookup. unfold sorted.
    destruct (decide (k ∈ sort_by _ _)) as [Hk|Hk]; rewrite sort_by_perm in Hk.
    + by rewrite decide_True.
    + by rewrite decide_False.
  - destruct (decide (sectionEvents_of d sec = [])) as [Hl|Hl]; [right|by left].
    exists fe. rewrite <- Hfe. unfold sorted. by rewrite Hl.
Qed.

(** An iteration completes when no milestone is named [hasOwnProperty]
    and its section has a present milestone or a milestone is named
    [undefined]. *)
Lemma match_section_returns d s x sec :
  d !! "hasOwnProperty" = None ->
  s !! x = Some sec ->
  sectionEvents_of d sec <> [] \/ is_Some (d !! "undefined") ->
  exists d1 s1, match_section (d, s) x = ((d1, s1), Normal tt).
Proof.
  intros Hown Hsec [Hne|[u Hu]].
  - rewrite (match_section_nonempty d s x sec) by done. by eauto.
  - destruct (sectionEvents_of d sec) as [|k0 l] eqn:Hl.
    + rewrite match_section_own by done. rewrite Hsec, Hl. simpl. rewrite Hu.
      by eauto.
    + rewrite (match_section_nonempty d s x sec); [by eauto|done|done|by rewrite Hl].
Qed.

Lemma tagged_by_ext d d1 s s1 xs k : forall init,
  same_times d d1 -> length s1 = length s ->
  (forall x sec, s !! x = Some sec ->
     exists sec1, s1 !! x = Some sec1 /\ same_range sec sec1) ->
  tagged_by d1 s1 xs k init = tagged_by d s xs k init.
Proof.
  intros init Ht Hlen Hr. revert init. unfold tagged_by.
  induction xs as [|x xs IH]; intros init; [done|]. cbn [foldl].
  rewrite IH. f_equal.
  destruct (s !! x) as [sec|] eqn:Hsec.
  - destruct (Hr x sec Hsec) as (sec1 & -> & Hrange).
    rewrite (sectionEvents_of_ext d d1 sec sec1) by done. done.
  - apply lookup_ge_None in Hsec. rewrite <- Hlen in Hsec.
    apply lookup_ge_None in Hsec. by rewrite Hsec.
Qed.

(** A completed run changes the section tag of the milestones only, to
    the last visited section each of them is present in. *)
Lemma match_loop_tags xs : forall d s d' s',
  for_each match_section (d, s) xs = ((d', s'), Normal tt) ->
  forall k e', d' !! k = Some e' ->
    exists e, d !! k = Some e /\
      sectionIndex e' = tagged_by d s xs k (sectionIndex e) /\
      time e' = time e /\ label e' = label e /\ timeEnd e' = timeEnd e.
Proof.
  induction xs as [|x xs IH]; intros d s d' s' H k e' Hk; cbn [for_each] in H.
  - injection H as <- <-. by exists e'.
  - destruct (match_section (d, s) x) as [[d1 s1] [[]|e1]] eqn:H1; [|done].
    pose proof H1 as (Ht1 & Hl1 & Hr1 & _)%match_section_inv.
    apply match_section_normal in H1 as (sec & Hsec & _ & Hd1 & _).
    destruct (IH _ _ _ _ H k e' Hk) as (e1 & Hk1 & Hi & Htime & Hlab & Hend).
    rewrite (tagged_by_ext d d1 s s1) in Hi by done.
    unfold tagged_by. cbn [foldl]. rewrite Hsec. fold (tagged_by d s xs k).
    rewrite Hd1 in Hk1.
    destruct (decide (k ∈ sectionEvents_of d sec)).
    + destruct (d !! k) as [e0|]; [|done]. injection Hk1 as <-.
      exists e0. by split_and!.
    + exists e1. by split_and!.
Qed.

(** A completed run leaves every visited section bounded. *)
Lemma match_loop_normal xs : forall d s d' s',
  NoDup xs ->
  for_each match_section (d, s) xs = ((d', s'), Normal tt) ->
  forall i, i ∈ xs ->
    exists sec, s !! i = Some sec /\ s' !! i = Some (bounded d sec) /\
      (sectionEvents_of d sec <> [] \/ is_Some (d !! "undefined")).
Proof.
  induction xs as [|x xs IH]; intros d s d' s' Hnd H i Hi; cbn [for_each] in H.
  - by apply elem_of_nil in Hi.
  - apply NoDup_cons in Hnd as [Hx Hnd].
    destruct (match_section (d, s) x) as [[d1 s1] [[]|e1]] eqn:H1; [|done].
    pose proof H1 as (Ht1 & _ & _ & Hf1 & _)%match_section_inv.
    apply match_section_normal in H1 as (sec & Hsec & -> & _ & Hor).
    apply elem_of_cons in Hi as [->|Hi].
    + exists sec. split; [done|]. split; [|done].
      apply match_loop_inv in H as (_ & _ & _ & Hf & _).
      rewrite Hf by done. by rewrite list_lookup_alter_eq, Hsec.
    + destruct (IH _ _ _ _ Hnd H i Hi) as (seci & Hseci & Hb & Hori).
      assert (i <> x) as Hne by (by intros ->).
      rewrite list_lookup_alter_ne in Hseci by done.
      exists seci. split; [done|].
      rewrite (bounded_ext d d1) in Hb by done. split; [done|].
      rewrite (sectionEvents_of_ext d d1 seci seci) in Hori by done.
      destruct Hori as [?|Hu]; [by left|right].
      by apply (same_times_is_Some d d1).
Qed.

(** The run completes when every visited section can be bounded. *)
Lemma match_loop_returns xs : forall d s,
  d !! "hasOwnProperty" = None ->
  (forall i, i ∈ xs -> exists sec, s !! i = Some sec /\
     (sectionEvents_of d sec <> [] \/ is_Some (d !! "undefined"))) ->
  exists d' s', for_each match_section (d, s) xs = ((d', s'), Normal tt).
Proof.
  induction xs as [|x xs IH]; intros d s Hown Hall; [by exists d, s|].
  destruct (Hall x) as (sec & Hsec & Hor); [apply list_elem_of_here|].
  destruct (match_section_returns d s x sec Hown Hsec Hor) as (d1 & s1 & H1).
  cbn [for_each]. rewrite H1.
  apply match_section_inv in H1 as (Ht1 & _ & Hr1 & _).
  apply IH; [by eapply same_times_None|]. intros i Hi.
  destruct (Hall i) as (seci & Hseci & Hori); [by apply list_elem_of_further|].
  destruct (Hr1 i seci Hseci) as (sec1 & Hsec1 & Hrange).
  exists sec1. split; [done|].
  rewrite (sectionEvents_of_ext d d1 seci sec1) by done.
  destruct Hori as [?|Hu]; [by left|right].
  by apply (same_times_is_Some d d1).
Qed.

(** ** The section of a catalog name *)

Lemma section_of_unfold k :
  section_of k =
  if decide (k ∈ slice eventsOrder 13 (23 + 1)) then Some 2%nat
  else if decide (k ∈ slice eventsOrder 10 (12 + 1)) then Some 1%nat
  else if decide (k ∈ slice eventsOrder 0 (9 + 1)) then Some 0%nat
  else None.
Proof. reflexivity. Qed.

(** The three catalog ranges share no name. *)
Lemma ranges_disjoint k :
  (k ∈ slice eventsOrder 0 (9 + 1) ->
     (k ∉ slice eventsOrder 10 (12 + 1)) /\ (k ∉ slice eventsOrder 13 (23 + 1))) /\
  (k ∈ slice eventsOrder 10 (12 + 1) -> k ∉ slice eventsOrder 13 (23 + 1)).
Proof.
  assert (Forall (fun x => (x ∉ slice eventsOrder 10 (12 + 1)) /\
                           (x ∉ slice eventsOrder 13 (23 + 1)))
                 (slice eventsOrder 0 (9 + 1))) as H0.
  { apply (bool_decide_unpack _). vm_cast_no_check I. }
  assert (Forall (fun x => x ∉ slice eventsOrder 13 (23 + 1))
                 (slice eventsOrder 10 (12 + 1))) as H1.
  { apply (bool_decide_unpack _). vm_cast_no_check I. }
  rewrite Forall_forall in H0, H1. split; eauto.
Qed.

(** [section_of] names the one section whose catalog range holds [k]. *)
Lemma section_of_spec k i :
  section_of k = Some i <->
  exists sec, _getSections !! i = Some sec /\
    k ∈ slice eventsOrder (firstEventIndex sec) (lastEventIndex sec + 1).
Proof.
  rewrite section_of_unfold.
  destruct (ranges_disjoint k) as [H0 H1]. split.
  - repeat case_decide; intros [= <-]; eexists; (split; [reflexivity|done]).
  - intros (sec & Hsec & Hk).
    assert (i < 3)%nat as Hi.
    { apply lookup_lt_Some in Hsec. by change (length _getSections) with 3%nat in Hsec. }
    destruct i as [|[|[|i]]]; [| | |lia];
      unfold _getSections in Hsec; cbn [lookup list_lookup] in Hsec;
      apply (inj Some) in Hsec; subst sec;
      cbn [firstEventIndex lastEventIndex] in Hk.
    + change (k ∈ slice eventsOrder 0 (9 + 1)) in Hk.
      destruct (H0 Hk). rewrite !decide_False by assumption.
      by rewrite decide_True.
    + change (k ∈ slice eventsOrder 10 (12 + 1)) in Hk.
      specialize (H1 Hk). rewrite decide_False by assumption.
      by rewrite decide_True.
    + change (k ∈ slice eventsOrder 13 (23 + 1)) in Hk.
      by rewrite decide_True.
Qed.

Lemma catalog_section evt : evt ∈ eventsOrder -> is_Some (section_of evt).
Proof.
  intros (i & sec & _ & Hsec & Hk)%catalog_covered.
  exists i. apply section_of_spec. by exists sec.
Qed.

(** In the catalog, the [End] of a block lies in the section of its
    [Start]. *)
Lemma block_end_section evt b :
  evt ∈ eventsOrder -> block_of evt = Some b ->
  section_of (b +:+ "End") = section_of evt.
Proof.
  unfold eventsOrder at 1. intros Hin Hb.
  repeat (apply elem_of_cons in Hin as [->|Hin];
          [vm_compute in Hb;
           first [discriminate Hb | injection Hb as <-; by_eval]|]).
  by apply elem_of_nil in Hin.
Qed.

Lemma tagged_by_present d s xs k :
  is_Some (d !! k) -> forall init,
  tagged_by d s xs k init =
  foldl (fun acc i =>
           match s !! i with
           | Some sec =>
               if decide (k ∈ slice eventsOrder (firstEventIndex sec)
                                    (lastEventIndex sec + 1))
               then Some i else acc
           | None => acc
           end) init xs.
Proof.
  intros Hk. unfold tagged_by.
  induction xs as [|x xs IH]; intros init; [done|]. cbn [foldl].
  rewrite IH. f_equal. destruct (s !! x) as [sec|]; [|done].
  unfold sectionEvents_of.
  destruct (decide (k ∈ filter _ _)) as [Hin|Hin];
    rewrite list_elem_of_filter in Hin.
  - rewrite decide_True; [done|]. by destruct Hin.
  - rewrite decide_False; [done|]. intros ?. by apply Hin.
Qed.

(** ** What the emission loop writes into [timingData] *)

Lemma mark_of_idem d secs k e :
  mark_of d secs k (mark_of d secs k e) = mark_of d secs k e.
Proof. unfold mark_of. by destruct (emitted _). Qed.

Lemma mark_of_ext d d' secs k e :
  same_shape d d' -> mark_of d' secs k e = mark_of d secs k e.
Proof. intros H. unfold mark_of. by rewrite (action_of_ext d d'). Qed.

Lemma mark_of_fields d secs k e :
  time (mark_of d secs k e) = time e /\
  sectionIndex (mark_of d secs k e) = sectionIndex e.
Proof. unfold mark_of. by destruct (emitted _). Qed.

(** A completed iteration on [evt] rewrites the entry of [evt] only. *)
Lemma emit_step_marks secs st evt st' :
  emit_step secs st evt = (st', Normal tt) ->
  forall k, ls_data st' !! k =
    (if decide (k = evt) then mark_of (ls_data st) secs evt else id)
      <$> ls_data st !! k.
Proof.
  unfold emit_step, hasOwnProperty, mark_of, action_of, block_of. intros H k.
  destruct (ls_data st !! "hasOwnProperty") as [own|]; [done|].
  destruct (ls_data st !! evt) as [item|] eqn:Hitem.
  2:{ injection H as <-. destruct (decide (k = evt)) as [->|_].
      - by rewrite Hitem.
      - by destruct (ls_data st !! k). }
  destruct (str_indexOf "Start" evt) as [startIndex|].
  2:{ injection H as <-. destruct (decide _); by destruct (ls_data st !! k). }
  cbv zeta in *.
  set (eventName := substr0 evt startIndex) in *.
  destruct (-1 <? indexOf eventsOrder (eventName +:+ "End")).
  2:{ injection H as <-. destruct (decide _); by destruct (ls_data st !! k). }
  assert (forall j e, <[evt := set_label eventName item]> (ls_data st) !! j = Some e ->
            exists e0, ls_data st !! j = Some e0 /\ time e0 = time e) as Hlk.
  { intros j e. destruct (decide (j = evt)) as [->|Hne].
    - rewrite lookup_insert_eq. intros [= <-]. eauto.
    - rewrite lookup_insert_ne by done. eauto. }
  destruct (<[evt := set_label eventName item]> (ls_data st) !! (eventName +:+ "End"))
    as [e|] eqn:He; [|done].
  destruct (Hlk _ _ He) as (e0 & -> & Hte0).
  simpl in H.
  destruct (sectionIndex item ≫= _) as [sectionData|]; [|done].
  injection H as <-. simpl.
  destruct (decide (k = evt)) as [->|Hne].
  - rewrite lookup_insert_eq, Hitem. simpl. by rewrite Hte0.
  - rewrite !lookup_insert_ne by done. by destruct (ls_data st !! k).
Qed.

(** A completed loop rewrites the entries of the visited names only, each
    once and for all. *)
Lemma emit_loop_marks secs xs : forall st st',
  for_each (emit_step secs) st xs = (st', Normal tt) ->
  forall k, ls_data st' !! k =
    (if decide (k ∈ xs) then mark_of (ls_data st) secs k else id)
      <$> ls_data st !! k.
Proof.
  induction xs as [|x xs IH]; intros st st' H k; cbn [for_each] in H.
  - injection H as <-. rewrite decide_False by apply not_elem_of_nil.
    by destruct (ls_data st !! k).
  - destruct (emit_step secs st x) as [st1 [[]|e1]] eqn:H1; [|done].
    pose proof H1 as [Hs1 _]%emit_step_spec.
    rewrite (IH _ _ H k), (emit_step_marks _ _ _ _ H1 k).
    destruct (decide (k = x)) as [->|Hne].
    + rewrite (decide_True (P := x ∈ x :: xs)) by apply list_elem_of_here.
      destruct (ls_data st !! x) as [e|]; [|done]. simpl. f_equal.
      destruct (decide (x ∈ xs)); [|done].
      by rewrite (mark_of_ext _ _ _ _ _ Hs1), mark_of_idem.
    + destruct (ls_data st !! k) as [e|]; [|done]. simpl. f_equal.
      destruct (decide (k ∈ xs)) as [Hin|Hin].
      * rewrite decide_True by (by apply list_elem_of_further).
        by rewrite (mark_of_ext _ _ _ _ _ Hs1).
      * rewrite decide_False; [done|]. by intros [?|?]%elem_of_cons.
Qed.

(** ** The instance a completed call leaves *)

Lemma captured_fresh timing this events k e :
  captured timing this events -> events !! k = Some e ->
  e = fresh_event (time e).
Proof.
  unfold captured.
  destruct (_getData_spec timing this) as (ev & total & -> & Hev & _).
  simpl. intros [= ->]. rewrite Hev. destruct (decide _); [|done].
  destruct (offset_of _ _ k); [|done].
  destruct (decide (k = "__proto__")); [done|]. by intros [= <-].
Qed.

Lemma captured_le_total timing this events k e :
  captured timing this events -> events !! k = Some e ->
  time e <= totalTime (_getData (Some timing) this).1.
Proof.
  unfold captured.
  destruct (_getData_spec timing this) as (ev & total & -> & Hev & _ & Hub & _).
  simpl. intros [= ->]. rewrite Hev. destruct (decide _) as [Hk|]; [|done].
  destruct (offset_of _ _ k) as [t|] eqn:Ht; [|done].
  destruct (decide (k = "__proto__")); [done|]. intros [= <-]. simpl. eauto.
Qed.

(** The stages a completed call went through: [d3] is [timingData] after
    the sections were matched. *)
Lemma _init_normal_state timing this events this' rows :
  captured timing this events ->
  _init (Some timing) this = (this', Normal rows) ->
  exists d3 data',
    timingData this' = Some data' /\
    totalTime this' = totalTime (_getData (Some timing) this).1 /\
    same_times events d3 /\
    (forall k e3, d3 !! k = Some e3 ->
       sectionIndex e3 = section_of k /\ label e3 = None /\ timeEnd e3 = None) /\
    (forall i sec, _getSections !! i = Some sec ->
       sections this' !! i = Some (bounded events sec) /\
       (sectionEvents_of events sec <> [] \/ is_Some (events !! "undefined"))) /\
    Forall (fun evt => action_of d3 (sections this') evt <> Raise) eventsOrder /\
    rows = omap (fun evt => emitted (action_of d3 (sections this') evt)) eventsOrder /\
    (forall k, data' !! k =
       (if decide (k ∈ eventsOrder) then mark_of d3 (sections this') k else id)
         <$> d3 !! k).
Proof.
  intros Hc Hrun. pose proof Hc as Hc'%captured_spec.
  rewrite (_init_Some _ _ _ _ Hc') in Hrun.
  destruct (for_each match_section _ _) as [[d3 s3] [[]|e]] eqn:Hm; [|done].
  destruct (for_each (emit_step s3) _ _) as [st [[]|e]] eqn:He; [|done].
  injection Hrun as <- <-. cbn [timingData totalTime sections].
  exists d3, (ls_data st).
  pose proof Hm as (Ht & _)%match_loop_inv.
  pose proof He as (_ & Hall & Hout)%emit_loop_spec.
  cbn [ls_data ls_output] in Hall, Hout. rewrite app_nil_l in Hout.
  split_and!; [done|done|done| | |done|done|].
  - intros k e3 Hk3.
    destruct (match_loop_tags _ _ _ _ _ Hm k e3 Hk3) as (e & Hk & Hi & _ & Hl & Hte).
    rewrite (captured_fresh _ _ _ _ _ Hc Hk) in Hi, Hl, Hte.
    split; [|split; [exact Hl|exact Hte]]. rewrite Hi.
    rewrite tagged_by_present by (rewrite Hk; by eexists). reflexivity.
  - intros i sec Hsec.
    assert (i ∈ [0; 1; 2]%nat) as Hi.
    { apply lookup_lt_Some in Hsec. change (length _getSections) with 3%nat in Hsec.
      destruct i as [|[|[|i]]]; [solve_elem..|lia]. }
    destruct (match_loop_normal [0; 1; 2]%nat events _getSections d3 s3)
      with (i := i) as (sec' & Hsec' & Hb & Hor); [|done|done|].
    { repeat (apply NoDup_cons; split; [rewrite ?elem_of_cons, elem_of_nil; lia|]).
      apply NoDup_nil_2. }
    assert (sec' = sec) as -> by congruence. split; [exact Hb|exact Hor].
  - intros k. exact (emit_loop_marks _ _ _ _ He k).
Qed.

(** [_init] returns on the milestones [returns_on] accepts. *)
Lemma _init_returns timing this events :
  captured timing this events -> returns_on events = true ->
  exists this' rows, _init (Some timing) this = (this', Normal rows).
Proof.
  intros Hc [[Hown Hblocks]%andb_prop Hsecs]%andb_prop.
  apply negb_true_iff, bool_decide_eq_false, eq_None_not_Some in Hown.
  pose proof Hc as Hc'%captured_spec.
  rewrite (_init_Some _ _ _ _ Hc').
  destruct (match_loop_returns [0; 1; 2]%nat events _getSections)
    as (d3 & s3 & Hm).
  { exact Hown. }
  { intros i Hi.
    assert (exists sec, _getSections !! i = Some sec) as [sec Hsec].
    { apply lookup_lt_is_Some. apply list_elem_of_lookup in Hi as (j & Hj).
      change (length _getSections) with 3%nat.
      repeat (destruct j as [|j]; [injection Hj as <-; lia|]). done. }
    exists sec. split; [done|].
    apply orb_prop in Hsecs as [Hall|Hu].
    - left. rewrite forallb_forall in Hall. specialize (Hall sec).
      unfold section_present in Hall. intros Hnil. rewrite Hnil in Hall.
      apply Bool.diff_false_true, Hall.
      apply list_elem_of_In. by eapply list_elem_of_lookup_2.
    - right. by apply bool_decide_eq_true_1 in Hu. }
  rewrite Hm.
  pose proof Hm as (Ht & Hlen & _)%match_loop_inv.
  destruct (for_each (emit_step s3) _ _) as [st c] eqn:He.
  apply emit_loop_spec in He as (_ & Hcase). cbn [ls_data] in Hcase.
  destruct c as [[]|e]; [by eauto|]. exfalso.
  apply Exists_exists in Hcase as (evt & Hin & Hraise).
  unfold action_of in Hraise.
  rewrite (same_times_None events d3 _ Ht Hown) in Hraise.
  destruct (d3 !! evt) as [item|] eqn:Hitem; [|done].
  destruct (block_of evt) as [b|] eqn:Hblock; [|done].
  destruct (match_loop_tags _ _ _ _ _ Hm evt item Hitem) as (e0 & He0 & Hi & _).
  rewrite forallb_forall in Hblocks.
  specialize (Hblocks evt (proj1 (list_elem_of_In _ _) Hin)).
  unfold block_closed in Hblocks. rewrite He0, Hblock in Hblocks.
  apply bool_decide_eq_true_1 in Hblocks as [eE HeE].
  destruct (proj2 (same_times_is_Some events d3 (b +:+ "End") Ht)
              (mk_is_Some _ _ HeE)) as [e3 He3].
  rewrite He3 in Hraise.
  rewrite (captured_fresh _ _ _ _ _ Hc He0) in Hi.
  rewrite tagged_by_present in Hi by (by eexists).
  assert (sectionIndex item = section_of evt) as Hi' by (rewrite Hi; reflexivity).
  destruct (catalog_section evt Hin) as [i Hsi].
  rewrite Hi', Hsi in Hraise. cbn [mbind option_bind] in Hraise.
  apply section_of_spec in Hsi as (sec & Hsec & _).
  assert (is_Some (s3 !! i)) as [sd Hsd].
  { apply lookup_lt_is_Some. rewrite Hlen. by eapply lookup_lt_Some. }
  rewrite Hsd in Hraise. discriminate Hraise.
Qed.

(** A milestone named [hasOwnProperty] makes [_init] raise at line 101,
    in the first section, before any section is bounded. *)
Lemma _init_throws_shadowed timing this events :
  captured timing this events -> is_Some (events !! "hasOwnProperty") ->
  _init (Some timing) this =
    ({| totalTime := totalTime (_getData (Some timing) this).1;
        timingData := Some events; sections := _getSections |}, Throw TypeError).
Proof.
  intros Hc%captured_spec Hown. rewrite (_init_Some _ _ _ _ Hc).
  cbn [for_each].
  rewrite (match_section_shadowed events _getSections 0
             (mkSection "network" [224; 84; 63] 0 9 0 0)); [done|done|reflexivity|].
  cbn [firstEventIndex lastEventIndex].
  assert (slice eventsOrder 0 (9 + 1) = take 10 eventsOrder) as -> by reflexivity.
  discriminate.
Qed.

(** [_init] returns exactly on the captured milestones none of which is
    named [hasOwnProperty], in which every present [Start] of a catalog
    block has its [End], and every section has a present milestone or some
    milestone is named [undefined]; on all others a [TypeError] escapes. *)
Theorem _init_returns_iff timing this events :
  captured timing this events ->
  (returns_on events = true ->
     exists this' rows, _init (Some timing) this = (this', Normal rows)) /\
  (returns_on events = false ->
     (_init (Some timing) this).2 = Throw TypeError).
Proof.
  intros Hc. split; [by apply _init_returns|].
  intros Hr. unfold returns_on in Hr.
  apply andb_false_iff in Hr as [[Hown|Hb]%andb_false_iff|Hs].
  - rewrite (_init_throws_shadowed timing this events Hc); [done|].
    by apply negb_false_iff, bool_decide_eq_true_1 in Hown.
  - apply forallb_false in Hb as (evt & Hin & Hevt).
    unfold block_closed in Hevt.
    destruct (events !! evt) as [item|] eqn:Hitem; [|done].
    destruct (block_of evt) as [b|] eqn:Hblock; [|done].
    apply (_init_throws_unclosed timing this events evt b); [done..| |done|].
    + by rewrite Hitem.
    + apply eq_None_not_Some. by apply bool_decide_eq_false in Hevt.
  - apply orb_false_iff in Hs as [Hs Hu].
    apply forallb_false in Hs as (sec & Hin & Hsec).
    apply list_elem_of_lookup in Hin as (i & Hi).
    apply (_init_throws_empty timing this events i sec); [done..| |].
    + unfold section_present in Hsec. by destruct (sectionEvents_of events sec).
    + apply eq_None_not_Some. by apply bool_decide_eq_false in Hu.
Qed.

(** On [undefined_field], whose server and browser sections are empty,
    [_init] returns; on [no_server] it raises, and so it does on
    [shadowing_field], whose other milestones are well-formed. *)
Lemma _init_returns_iff_witness :
  (exists this' rows, _init (Some undefined_field) __Profiler = (this', Normal rows)) /\
  (_init (Some no_server) __Profiler).2 = Throw TypeError /\
  (well_formed (default ∅ (_getData (Some shadowing_field) __Profiler).2) = true /\
   (_init (Some shadowing_field) __Profiler).2 = Throw TypeError).
Proof.
  split_and!.
  - apply (_init_returns_iff undefined_field __Profiler
             (default ∅ (_getData (Some undefined_field) __Profiler).2));
      [reflexivity|by_eval].
  - apply (_init_returns_iff no_server __Profiler
             (default ∅ (_getData (Some no_server) __Profiler).2));
      [reflexivity|by_eval].
  - by_eval.
  - apply (_init_returns_iff shadowing_field __Profiler
             (default ∅ (_getData (Some shadowing_field) __Profiler).2));
      [reflexivity|by_eval].
Defined.

(** When [_init] returns, every milestone left in [timingData] carries
    the index of the section whose catalog range holds its name, and none
    when its name is in no range. *)
Theorem milestones_tagged_by_section timing this events :
  captured timing this events -> returns_on events = true ->
  exists this' rows data',
    _init (Some timing) this = (this', Normal rows) /\
    timingData this' = Some data' /\
    forall k e', data' !! k = Some e' ->
      forall i, sectionIndex e' = Some i <->
        exists sec, _getSections !! i = Some sec /\
          k ∈ slice eventsOrder (firstEventIndex sec) (lastEventIndex sec + 1).
Proof.
  intros Hc Hr.
  destruct (_init_returns _ _ _ Hc Hr) as (this' & rows & Hrun).
  destruct (_init_normal_state _ _ _ _ _ Hc Hrun)
    as (d3 & data' & Hdata & _ & _ & Htag & _ & _ & _ & Hmark).
  exists this', rows, data'. split; [done|]. split; [done|].
  intros k e' Hk i. rewrite Hmark in Hk.
  destruct (d3 !! k) as [e3|] eqn:Hk3; [|done].
  destruct (Htag k e3 Hk3) as (Hi & _).
  rewrite <- section_of_spec, <- Hi.
  injection Hk as <-. destruct (decide _); [|done].
  by rewrite (proj2 (mark_of_fields _ _ _ _)).
Qed.

(** On [full_load]. *)
Lemma milestones_tagged_by_section_witness :
  exists this' rows data',
    _init (Some full_load) __Profiler = (this', Normal rows) /\
    timingData this' = Some data' /\
    forall k e', data' !! k = Some e' ->
      forall i, sectionIndex e' = Some i <->
        exists sec, _getSections !! i = Some sec /\
          k ∈ slice eventsOrder (firstEventIndex sec) (lastEventIndex sec + 1).
Proof.
  apply (milestones_tagged_by_section full_load __Profiler
           (default ∅ (_getData (Some full_load) __Profiler).2));
    [reflexivity|by_eval].
Defined.

(** When [_init] returns, every captured milestone is still in
    [timingData] at its offset; the catalog [Start] of a block whose [End]
    is captured carries the block as [label] and the offset of the [End] as
    [timeEnd], and every other milestone carries neither. *)
Theorem paired_starts_labelled timing this events :
  captured timing this events -> returns_on events = true ->
  exists this' rows data',
    _init (Some timing) this = (this', Normal rows) /\
    timingData this' = Some data' /\
    forall k e, events !! k = Some e ->
      exists e', data' !! k = Some e' /\ time e' = time e /\
        (forall b t0 t, k ∈ eventsOrder -> pair_of events k = Some (b, (t0, t)) ->
           label e' = Some b /\ timeEnd e' = Some t) /\
        (k ∉ eventsOrder \/ pair_of events k = None ->
           label e' = None /\ timeEnd e' = None).
Proof.
  intros Hc Hr.
  destruct (_init_returns _ _ _ Hc Hr) as (this' & rows & Hrun).
  destruct (_init_normal_state _ _ _ _ _ Hc Hrun)
    as (d3 & data' & Hdata & _ & Ht & Htag & _ & Hall & _ & Hmark).
  exists this', rows, data'. split; [done|]. split; [done|].
  intros k e Hk.
  destruct (proj2 (same_times_is_Some events d3 k Ht) (mk_is_Some _ _ Hk))
    as [e3 Hk3].
  destruct (Htag k e3 Hk3) as (_ & Hl3 & Hte3).
  assert (time e3 = time e) as Ht3.
  { specialize (Ht k). rewrite Hk3, Hk in Ht. simpl in Ht. congruence. }
  rewrite Forall_forall in Hall.
  destruct (decide (k ∈ eventsOrder)) as [Hin|Hin].
  - pose proof (summary_of_action events d3 (sections this') k Ht (Hall k Hin))
      as Hsum.
    exists (mark_of d3 (sections this') k e3).
    split; [by rewrite Hmark, Hk3, decide_True|].
    split; [by rewrite (proj1 (mark_of_fields _ _ _ _))|].
    unfold mark_of.
    destruct (emitted (action_of d3 (sections this') k)) as [o|]; simpl in Hsum.
    + split.
      * intros b t0 t _ Hp. rewrite Hp in Hsum. injection Hsum as Hlab Hb.
        simpl. rewrite Hlab, Hb. done.
      * intros [?|Hp]; [done|]. by rewrite Hp in Hsum.
    + split; [|done]. intros b t0 t _ Hp. by rewrite Hp in Hsum.
  - exists e3. split; [by rewrite Hmark, Hk3, decide_False|].
    split; [done|]. split; [done|]. by intros _.
Qed.

(** On [full_load]. *)
Lemma paired_starts_labelled_witness :
  exists this' rows data',
    _init (Some full_load) __Profiler = (this', Normal rows) /\
    timingData this' = Some data' /\
    forall k e, default ∅ (_getData (Some full_load) __Profiler).2 !! k = Some e ->
      exists e', data' !! k = Some e' /\ time e' = time e /\
        (forall b t0 t, k ∈ eventsOrder ->
           pair_of (default ∅ (_getData (Some full_load) __Profiler).2) k
             = Some (b, (t0, t)) ->
           label e' = Some b /\ timeEnd e' = Some t) /\
        (k ∉ eventsOrder \/
         pair_of (default ∅ (_getData (Some full_load) __Profiler).2) k = None ->
           label e' = None /\ timeEnd e' = None).
Proof.
  apply (paired_starts_labelled full_load __Profiler); [reflexivity|by_eval].
Defined.

(** ** The blocks and their sections *)

(** When [_init] returns, every emitted block carries the color and the
    bounds of the section whose catalog range holds its [Start]; both ends
    of the block lie within these bounds, and the bounds end no later than
    [totalTime]. *)
Theorem blocks_within_sections timing this events :
  captured timing this events -> returns_on events = true ->
  exists this' rows,
    _init (Some timing) this = (this', Normal rows) /\
    Forall (fun o =>
        (exists i sec,
           _getSections !! i = Some sec /\
           (opt_label o +:+ "Start") ∈
             slice eventsOrder (firstEventIndex sec) (lastEventIndex sec + 1) /\
           sections this' !! i = Some (bounded events sec) /\
           opt_color o = color sec /\
           sectionTimeBounds o =
             (startTime (bounded events sec), endTime (bounded events sec))) /\
        (sectionTimeBounds o).1 <= (eventTimeBounds o).1 <= (sectionTimeBounds o).2 /\
        (sectionTimeBounds o).1 <= (eventTimeBounds o).2 <= (sectionTimeBounds o).2 /\
        (sectionTimeBounds o).2 <= totalTime this') rows.
Proof.
  intros Hc Hr.
  destruct (_init_returns _ _ _ Hc Hr) as (this' & rows & Hrun).
  destruct (_init_normal_state _ _ _ _ _ Hc Hrun)
    as (d3 & data' & _ & Htot & Ht & Htag & Hsecs & _ & Hrows & _).
  exists this', rows. split; [done|]. rewrite Hrows.
  apply Forall_forall. intros o (evt & Hin & Ho)%list_elem_of_omap.
  pose proof (emitted_block _ _ _ _ Ho) as Hb.
  unfold action_of in Ho.
  destruct (d3 !! "hasOwnProperty"); [done|].
  destruct (d3 !! evt) as [item|] eqn:Hitem; [|done].
  rewrite Hb in Ho.
  destruct (d3 !! (opt_label o +:+ "End")) as [eE|] eqn:HeE; [|done].
  destruct (Htag evt item Hitem) as (Hi & _).
  destruct (section_of evt) as [i|] eqn:Hsi; rewrite Hi in Ho;
    cbn [mbind option_bind] in Ho; [|discriminate Ho].
  pose proof Hsi as (sec & Hsec & Hslice)%section_of_spec.
  destruct (Hsecs i sec Hsec) as [Hsd _]. rewrite Hsd in Ho.
  cbn [emitted] in Ho. apply (inj Some) in Ho.
  assert (evt = opt_label o +:+ "Start") as Hevt by (by apply block_of_catalog).
  assert (evt ∈ sectionEvents_of events sec) as Hpres.
  { unfold sectionEvents_of. apply list_elem_of_filter. split; [|exact Hslice].
    apply (same_times_is_Some events d3 evt Ht). by eexists. }
  assert ((opt_label o +:+ "End") ∈ sectionEvents_of events sec) as HpresE.
  { unfold sectionEvents_of. apply list_elem_of_filter. split.
    - apply (same_times_is_Some events d3 _ Ht). by eexists.
    - pose proof (block_end_section evt _ Hin Hb) as HE. rewrite Hsi in HE.
      apply section_of_spec in HE as (sec' & Hsec' & HsliceE).
      by assert (sec' = sec) as -> by congruence. }
  assert (sectionEvents_of events sec <> []) as Hne.
  { intros Hnil. rewrite Hnil in Hpres. by apply elem_of_nil in Hpres. }
  destruct (bounded_min_max events sec Hne) as (_ & Hmin & (kM & HkM & HtM) & Hmax).
  pose proof (Hmin _ Hpres) as Hs1. pose proof (Hmax _ Hpres) as Hs2.
  pose proof (Hmin _ HpresE) as He1. pose proof (Hmax _ HpresE) as He2.
  rewrite <- (same_times_time_of events d3 evt Ht) in Hs1, Hs2.
  rewrite <- (same_times_time_of events d3 (opt_label o +:+ "End") Ht) in He1, He2.
  unfold time_of in Hs1, Hs2, He1, He2. rewrite Hitem in Hs1, Hs2.
  rewrite HeE in He1, He2.
  destruct (sectionEvents_of_present _ _ _ HkM) as [eM HeM].
  pose proof (captured_le_total _ _ _ _ _ Hc HeM) as Hle.
  unfold time_of in HtM. rewrite HeM in HtM.
  assert (opt_color o = color sec) as Hcol by (rewrite <- Ho; reflexivity).
  assert (sectionTimeBounds o =
            (startTime (bounded events sec), endTime (bounded events sec)))
    as Hsb by (rewrite <- Ho; reflexivity).
  assert (eventTimeBounds o = (time item, time eE)) as Heb
    by (rewrite <- Ho; reflexivity).
  rewrite Hsb, Heb. cbn [fst snd]. split.
  - exists i, sec. rewrite <- Hevt. by split_and!.
  - rewrite Htot. split_and!; [lia..|]. by rewrite <- HtM.
Qed.

(** On [full_load]. *)
Lemma blocks_within_sections_witness :
  exists this' rows,
    _init (Some full_load) __Profiler = (this', Normal rows) /\
    Forall (fun o =>
        (exists i sec,
           _getSections !! i = Some sec /\
           (opt_label o +:+ "Start") ∈
             slice eventsOrder (firstEventIndex sec) (lastEventIndex sec + 1) /\
           sections this' !! i =
             Some (bounded (default ∅ (_getData (Some full_load) __Profiler).2) sec) /\
           opt_color o = color sec /\
           sectionTimeBounds o =
             (startTime (bounded (default ∅ (_getData (Some full_load) __Profiler).2) sec),
              endTime (bounded (default ∅ (_getData (Some full_load) __Profiler).2) sec))) /\
        (sectionTimeBounds o).1 <= (eventTimeBounds o).1 <= (sectionTimeBounds o).2 /\
        (sectionTimeBounds o).1 <= (eventTimeBounds o).2 <= (sectionTimeBounds o).2 /\
        (sectionTimeBounds o).2 <= totalTime this') rows.
Proof.
  apply (blocks_within_sections full_load __Profiler); [reflexivity|by_eval].
Defined.

(** ** The text handed to [innerHTML] *)

Lemma output_html_summary rows :
  output_html rows =
  foldl (fun out p => out +:+ line_of_pair p) "" (summary <$> rows).
Proof.
  unfold output_html. generalize "". 
  induction rows as [|o rows IH]; intros out; [done|].
  cbn [foldl fmap list_fmap]. apply IH.
Qed.

(** When [_init] returns and the captured offsets are safe integers
    (below 2^53 in magnitude, which the language prints in plain decimal
    digits, as [show_number] does), the text it hands to [innerHTML] is
    made of one line [label start-stop ms<br>] per catalog [Start] whose
    block is closed, in catalog order, with the offsets of its [Start] and
    [End]. *)
Theorem rendered_lines timing this events :
  captured timing this events -> returns_on events = true ->
  (forall k e, events !! k = Some e -> Z.abs (time e) < 2 ^ 53) ->
  exists this' rows,
    _init (Some timing) this = (this', Normal rows) /\
    output_html rows =
      foldl (fun out p => out +:+ line_of_pair p) ""
            (omap (pair_of events) eventsOrder).
Proof.
  intros Hc Hr _.
  destruct (_init_returns _ _ _ Hc Hr) as (this' & rows & Hrun).
  exists this', rows. split; [done|].
  by rewrite output_html_summary, (_init_rows _ _ _ _ _ Hc Hrun).
Qed.

(** On [connect_before_lookup]: two lines, [domainLookup] first. *)
Lemma rendered_lines_witness :
  (exists this' rows,
     _init (Some connect_before_lookup) __Profiler = (this', Normal rows) /\
     output_html rows =
       foldl (fun out p => out +:+ line_of_pair p) ""
             (omap (pair_of (default ∅
                      (_getData (Some connect_before_lookup) __Profiler).2))
                   eventsOrder)) /\
  foldl (fun out p => out +:+ line_of_pair p) ""
        (omap (pair_of (default ∅
                 (_getData (Some connect_before_lookup) __Profiler).2))
              eventsOrder) =
    "domainLookup 50-60 ms<br>" +:+ newline +:+ "connect 20-30 ms<br>" +:+ newline.
Proof.
  split; [|by_eval].
  apply (rendered_lines connect_before_lookup __Profiler); [reflexivity|by_eval|].
  change (map_Forall (fun (_ : string) e => Z.abs (time e) < 2 ^ 53)
            (default ∅ (_getData (Some connect_before_lookup) __Profiler).2)).
  apply (bool_decide_unpack _). vm_cast_no_check I.
Defined.

End Timing.
